(** * Graspify game store: the progress ledger

    A shallow embedding of the Zustand store that keeps a learner's XP,
    level, streak, badges, daily missions and activity counters, together
    with the properties of its update rules.  After the store comes the
    code around it: the reward block of the doubt solver, the schedule
    that [generateStudyPlan] builds from a parsed plan, the reducer of the
    toast store and the e-mail check of the login page.

    Conventions of the embedding.
    - JavaScript numbers that the store only ever adds, compares and
      multiplies by a streak multiplier are integers here ([Z]); the streak
      multipliers 1.0, 1.25, 1.5, 1.75 and 2.0 are dyadic, so the product
      [baseXP * multiplier] is exact and is computed in [Q].
    - [Math.floor(Math.sqrt(xp / 100))] is the integer square root of the
      floored quotient, which is the same number for every [xp >= 0]
      (see [calculateLevel_real]); a negative [xp], where JavaScript
      yields NaN, is outside the embedding.
    - [get()] and [set(partial)] are the two primitives of a state monad
      over [GameState]; [set] replaces the listed fields and keeps the
      others.
    - [new Date()] is a reading of a [Clock] handed to the action: the
      time value of the instant (milliseconds since the epoch), its ISO
      time stamp and the time zone of the browser; one action reads the
      clock once.  The date strings 'YYYY-MM-DD' that [toISOString]
      yields are the ordinals of the UTC days, [dateOf].
    - [Date.prototype.setDate] works on the local time of the browser:
      [LocalTime], [UTC] and [setDate] follow the definitions of
      ECMAScript, with the time zone as the pair of offset functions
      LocalTZA(t, true) and LocalTZA(t, false).  [updateStreak] obtains yesterday by
      [setDate(getDate() - 1)] and reads its date in UTC like today's,
      so the two dates are a day apart only while the offset of the time
      zone does not change in between (see [yesterdayStr_spec]). *)

From Stdlib Require Import ZArith QArith Qround Reals Lra List String Bool Lia.
From Stdlib Require Import DecimalString Sorted Permutation.
Import ListNotations.

Local Open Scope string_scope.
Local Open Scope Z_scope.

(** ** Data model ([src/types/index.ts]) *)

(** A calendar date 'YYYY-MM-DD', as the ordinal of its day. *)
Definition Day := Z.

(** Time values are milliseconds since 1970-01-01T00:00:00Z, as in a
    JavaScript [Date]. *)
Definition msPerDay : Z := 86400000.
Definition msPerHour : Z := 3600000.
Definition msPerMinute : Z := 60000.

(** The time zone of the browser: the offset of local time from UTC in
    milliseconds, for a UTC time value and for a local time value
    (ECMAScript's LocalTZA(t, true) and LocalTZA(t, false)). *)
Record TimeZone := {
  offsetOfUTC : Z -> Z;
  offsetOfLocal : Z -> Z
}.

Definition LocalTime (tz : TimeZone) (t : Z) : Z := t + offsetOfUTC tz t.
Definition UTC (tz : TimeZone) (t : Z) : Z := t - offsetOfLocal tz t.

(** [d.toISOString().split('T')[0]] for the time value [t]: the UTC day it
    falls on ([/] rounds down, as ECMAScript's Day(t)). *)
Definition dateOf (t : Z) : Day := t / msPerDay.

(** [d.setDate(d.getDate() + delta)] on the time value [t].  [setDate]
    takes the local time of [t], rebuilds it as
    MakeDate(MakeDay(year, month, date), TimeWithinDay) with the new day
    of the month, and converts the result back with UTC().  MakeDay counts
    [date - 1] days on from the first of the month, whether or not the
    month has such a day, so with [date = getDate() + delta] the rebuilt
    local time value is the old one moved by [delta] days. *)
Definition setDate (tz : TimeZone) (delta : Z) (t : Z) : Z :=
  UTC tz (LocalTime tz t + delta * msPerDay).

Record Clock := {
  isoString : string;  (* new Date().toISOString() *)
  instant : Z;         (* the time value of new Date() *)
  zone : TimeZone      (* the time zone of the browser *)
}.

(** [new Date().toISOString().split('T')[0]] *)
Definition today (now : Clock) : Day := dateOf (instant now).

(** [yesterday.toISOString().split('T')[0]] after
    [yesterday.setDate(yesterday.getDate() - 1)] *)
Definition yesterdayStr (now : Clock) : Day :=
  dateOf (setDate (zone now) (-1) (instant now)).

Module User.
Record t := mk {
  id : string;
  name : string;
  avatar : option string;
  xp : Z;
  level : Z;
  streak : Z;
  lastActiveDate : Day;
  badges : list string;
  createdAt : string
}.

(* { ...u, xp: x, level: l } *)
Definition with_xp_level (u : t) (x l : Z) : t :=
  mk (id u) (name u) (avatar u) x l (streak u) (lastActiveDate u)
     (badges u) (createdAt u).

(* { ...u, streak: st, lastActiveDate: d } *)
Definition with_streak_date (u : t) (st : Z) (d : Day) : t :=
  mk (id u) (name u) (avatar u) (xp u) (level u) st d
     (badges u) (createdAt u).

(* { ...u, badges: bs, xp: x } *)
Definition with_badges_xp (u : t) (bs : list string) (x : Z) : t :=
  mk (id u) (name u) (avatar u) x (level u) (streak u) (lastActiveDate u)
     bs (createdAt u).
End User.

Module Badge.
Record t := mk {
  id : string;
  name : string;
  description : string;
  icon : string;
  requirement : string;
  xpReward : Z;
  unlocked : bool;
  unlockedAt : option string
}.

(* { ...b, unlocked: true, unlockedAt: stamp } *)
Definition unlock_at (b : t) (stamp : string) : t :=
  mk (id b) (name b) (description b) (icon b) (requirement b)
     (xpReward b) true (Some stamp).

(* { ...b, unlocked: true } *)
Definition as_unlocked (b : t) : t :=
  mk (id b) (name b) (description b) (icon b) (requirement b)
     (xpReward b) true (unlockedAt b).
End Badge.

Inductive MissionType := quiz | flashcard | doubt | streak | study.

Definition MissionType_eqb (a b : MissionType) : bool :=
  match a, b with
  | quiz, quiz | flashcard, flashcard | doubt, doubt
  | streak, streak | study, study => true
  | _, _ => false
  end.

Module Mission.
Record t := mk {
  id : string;
  title : string;
  description : string;
  type : MissionType;
  target : Z;
  progress : Z;
  xpReward : Z;
  completed : bool
}.

(* { ...m, progress: p, completed: c } *)
Definition with_progress (m : t) (p : Z) (c : bool) : t :=
  mk (id m) (title m) (description m) (type m) (target m) p
     (xpReward m) c.
End Mission.

Inductive XPEventType :=
| correct_step | submit_step | complete_quiz | perfect_quiz
| review_flashcard | complete_mission | streak_bonus.

(** The keys of [GameState['stats']]. *)
Module Key.
Inductive t :=
| quizzesCompleted | flashcardsReviewed | doubtsAsked | stepsSubmitted
| correctSteps | studyPlansCreated | imagesUploaded.

Definition eqb (a b : t) : bool :=
  match a, b with
  | quizzesCompleted, quizzesCompleted
  | flashcardsReviewed, flashcardsReviewed
  | doubtsAsked, doubtsAsked
  | stepsSubmitted, stepsSubmitted
  | correctSteps, correctSteps
  | studyPlansCreated, studyPlansCreated
  | imagesUploaded, imagesUploaded => true
  | _, _ => false
  end.
End Key.

Module Stats.
Record t := mk {
  quizzesCompleted : Z;
  flashcardsReviewed : Z;
  doubtsAsked : Z;
  stepsSubmitted : Z;
  correctSteps : Z;
  studyPlansCreated : Z;
  imagesUploaded : Z
}.

(* stats[k] *)
Definition get (st : t) (k : Key.t) : Z :=
  match k with
  | Key.quizzesCompleted => quizzesCompleted st
  | Key.flashcardsReviewed => flashcardsReviewed st
  | Key.doubtsAsked => doubtsAsked st
  | Key.stepsSubmitted => stepsSubmitted st
  | Key.correctSteps => correctSteps st
  | Key.studyPlansCreated => studyPlansCreated st
  | Key.imagesUploaded => imagesUploaded st
  end.

(* { ...st, [k]: v } *)
Definition set (st : t) (k : Key.t) (v : Z) : t :=
  match k with
  | Key.quizzesCompleted =>
      mk v (flashcardsReviewed st) (doubtsAsked st) (stepsSubmitted st)
         (correctSteps st) (studyPlansCreated st) (imagesUploaded st)
  | Key.flashcardsReviewed =>
      mk (quizzesCompleted st) v (doubtsAsked st) (stepsSubmitted st)
         (correctSteps st) (studyPlansCreated st) (imagesUploaded st)
  | Key.doubtsAsked =>
      mk (quizzesCompleted st) (flashcardsReviewed st) v (stepsSubmitted st)
         (correctSteps st) (studyPlansCreated st) (imagesUploaded st)
  | Key.stepsSubmitted =>
      mk (quizzesCompleted st) (flashcardsReviewed st) (doubtsAsked st) v
         (correctSteps st) (studyPlansCreated st) (imagesUploaded st)
  | Key.correctSteps =>
      mk (quizzesCompleted st) (flashcardsReviewed st) (doubtsAsked st)
         (stepsSubmitted st) v (studyPlansCreated st) (imagesUploaded st)
  | Key.studyPlansCreated =>
      mk (quizzesCompleted st) (flashcardsReviewed st) (doubtsAsked st)
         (stepsSubmitted st) (correctSteps st) v (imagesUploaded st)
  | Key.imagesUploaded =>
      mk (quizzesCompleted st) (flashcardsReviewed st) (doubtsAsked st)
         (stepsSubmitted st) (correctSteps st) (studyPlansCreated st) v
  end.
End Stats.

Record GameState := mkState {
  user : User.t;
  badges : list Badge.t;
  missions : list Mission.t;
  stats : Stats.t
}.

(** ** Catalogues and pure helpers *)

Definition mkBadge (id name description icon requirement : string)
    (xpReward : Z) : Badge.t :=
  Badge.mk id name description icon requirement xpReward false None.

Definition BADGES : list Badge.t :=
  [ mkBadge "first_step" "First Steps" "Submit your first solution step"
      "🎯" "Submit 1 step" 25;
    mkBadge "correct_step" "Sharp Mind" "Get your first correct step"
      "✅" "Get 1 correct step" 50;
    mkBadge "quiz_master" "Quiz Master" "Complete 5 quizzes"
      "📝" "Complete 5 quizzes" 100;
    mkBadge "perfect_score" "Perfectionist" "Get a perfect quiz score"
      "💯" "Score 100% on a quiz" 150;
    mkBadge "flashcard_fan" "Memory Master" "Review 50 flashcards"
      "🧠" "Review 50 flashcards" 75;
    mkBadge "week_streak" "On Fire" "Maintain a 7-day streak"
      "🔥" "7-day streak" 200;
    mkBadge "study_planner" "Organized Learner" "Create your first study plan"
      "📅" "Create 1 study plan" 50;
    mkBadge "doubt_solver" "Problem Solver" "Solve 10 doubts with AI tutor"
      "💡" "Solve 10 doubts" 100;
    mkBadge "level_10" "Rising Star" "Reach level 10"
      "⭐" "Reach level 10" 250;
    mkBadge "ocr_explorer" "OCR Explorer" "Upload 5 images for text extraction"
      "📸" "Upload 5 images" 50 ].

(** [DAILY_MISSIONS.map(m => ({ ...m, progress: 0, completed: false }))] *)
Definition mkMission (id title description : string) (type : MissionType)
    (target xpReward : Z) : Mission.t :=
  Mission.mk id title description type target 0 xpReward false.

Definition DAILY_MISSIONS : list Mission.t :=
  [ mkMission "mission_quiz" "Quiz Champion" "Complete 2 quizzes today"
      quiz 2 75;
    mkMission "mission_flashcard" "Flash Review" "Review 15 flashcards"
      flashcard 15 50;
    mkMission "mission_doubt" "Curious Mind" "Ask 3 questions to the AI tutor"
      doubt 3 60;
    mkMission "mission_study" "Focused Learner" "Complete 1 study session"
      study 1 40 ].

Definition XP_REWARDS (type : XPEventType) : Z :=
  match type with
  | correct_step => 10
  | submit_step => 2
  | complete_quiz => 50
  | perfect_quiz => 25
  | review_flashcard => 3
  | complete_mission => 0
  | streak_bonus => 0
  end.

(** [Math.floor(Math.sqrt(xp / 100)) + 1] *)
Definition calculateLevel (xp : Z) : Z := Z.sqrt (xp / 100) + 1.

(** ** The store monad *)

Definition Store (A : Type) : Type := GameState -> A * GameState.

Definition ret {A} (a : A) : Store A := fun s => (a, s).

Definition bind {A B} (c : Store A) (k : A -> Store B) : Store B :=
  fun s => let (a, s') := c s in k a s'.

(** [get()] *)
Definition get : Store GameState := fun s => (s, s).

(** [set({ user })] *)
Definition set_user (u : User.t) : Store unit :=
  fun s => (tt, mkState u (badges s) (missions s) (stats s)).

(** [set({ badges, user })] *)
Definition set_badges_user (bs : list Badge.t) (u : User.t) : Store unit :=
  fun s => (tt, mkState u bs (missions s) (stats s)).

(** [set({ missions })] *)
Definition set_missions (ms : list Mission.t) : Store unit :=
  fun s => (tt, mkState (user s) (badges s) ms (stats s)).

(** [set({ stats })] *)
Definition set_stats (st : Stats.t) : Store unit :=
  fun s => (tt, mkState (user s) (badges s) (missions s) st).

Definition exec {A} (c : Store A) (s : GameState) : GameState := snd (c s).
Definition eval {A} (c : Store A) (s : GameState) : A := fst (c s).

Declare Scope store_scope.
Delimit Scope store_scope with store.
Notation "x <- c ;; k" := (bind c (fun x => k))
  (at level 61, c at next level, right associativity) : store_scope.
Notation "c ;; k" := (bind c (fun _ => k))
  (at level 61, right associativity) : store_scope.
Local Open Scope store_scope.

(** [when (c) { body }]: an [if] without [else] around an action whose
    result is dropped. *)
Definition when {A} (c : bool) (body : Store A) : Store unit :=
  if c then (body ;; ret tt) else ret tt.

(** [xs.map(f)] with a callback that acts on the store: the elements are
    visited from left to right. *)
Fixpoint mapM {A B} (f : A -> Store B) (xs : list A) : Store (list B) :=
  match xs with
  | [] => ret []
  | x :: xs' => y <- f x ;; ys <- mapM f xs' ;; ret (y :: ys)
  end.

(** ** The actions of the store *)

Record XPResult := {
  xpGained : Z;
  leveledUp : bool;
  newLevel : option Z
}.

Definition getStreakMultiplier : Store Q :=
  state <- get ;;
  let streak := User.streak (user state) in
  if 30 <=? streak then ret 2%Q
  else if 14 <=? streak then ret (7 # 4)%Q
  else if 7 <=? streak then ret (3 # 2)%Q
  else if 3 <=? streak then ret (5 # 4)%Q
  else ret 1%Q.

Definition unlockBadge (now : Clock) (badgeId : string)
    : Store (option Badge.t) :=
  state <- get ;;
  match find (fun b => Badge.id b =? badgeId)%string (badges state) with
  | None => ret None
  | Some badge =>
      if Badge.unlocked badge then ret None
      else
        let updatedBadges :=
          map (fun b => if (Badge.id b =? badgeId)%string
                        then Badge.unlock_at b (isoString now) else b)
              (badges state) in
        set_badges_user updatedBadges
          (User.with_badges_xp (user state)
             (User.badges (user state) ++ [badgeId])
             (User.xp (user state) + Badge.xpReward badge)) ;;
        ret (Some (Badge.as_unlocked badge))
  end.

Definition addXP (now : Clock) (type : XPEventType)
    (customAmount : option Z) : Store XPResult :=
  state <- get ;;
  let baseXP :=
    match customAmount with Some a => a | None => XP_REWARDS type end in
  multiplier <- getStreakMultiplier ;;
  let xpGained := Qfloor (inject_Z baseXP * multiplier) in
  let newXP := User.xp (user state) + xpGained in
  let newLevel := calculateLevel newXP in
  let leveledUp := User.level (user state) <? newLevel in
  set_user (User.with_xp_level (user state) newXP newLevel) ;;
  when (10 <=? newLevel) (unlockBadge now "level_10") ;;
  ret {| xpGained := xpGained;
         leveledUp := leveledUp;
         newLevel := if leveledUp then Some newLevel else None |}.

Definition updateStreak (now : Clock) : Store unit :=
  state <- get ;;
  let today := today now in
  let lastActive := User.lastActiveDate (user state) in
  let yesterdayStr := yesterdayStr now in
  let newStreak :=
    if lastActive =? yesterdayStr then User.streak (user state) + 1
    else if negb (lastActive =? today) then 1
    else User.streak (user state) in
  set_user (User.with_streak_date (user state) newStreak today) ;;
  when (7 <=? newStreak) (unlockBadge now "week_streak").

Definition updateMissionProgress (now : Clock) (type : MissionType)
    (amount : Z) : Store unit :=
  state <- get ;;
  updatedMissions <-
    mapM (fun m =>
            if MissionType_eqb (Mission.type m) type
               && negb (Mission.completed m)
            then
              let newProgress :=
                Z.min (Mission.progress m + amount) (Mission.target m) in
              let completed := Mission.target m <=? newProgress in
              when (completed && negb (Mission.completed m))
                   (addXP now complete_mission (Some (Mission.xpReward m))) ;;
              ret (Mission.with_progress m newProgress completed)
            else ret m)
         (missions state) ;;
  set_missions updatedMissions.

Definition resetDailyMissions : Store unit :=
  set_missions DAILY_MISSIONS.

Definition incrementStat (now : Clock) (stat : Key.t) : Store unit :=
  state <- get ;;
  let newStats := Stats.set (stats state) stat (Stats.get (stats state) stat + 1) in
  set_stats newStats ;;
  when (Key.eqb stat Key.stepsSubmitted
        && (Stats.stepsSubmitted newStats =? 1))
       (unlockBadge now "first_step") ;;
  when (Key.eqb stat Key.correctSteps
        && (Stats.correctSteps newStats =? 1))
       (unlockBadge now "correct_step") ;;
  when (Key.eqb stat Key.quizzesCompleted
        && (5 <=? Stats.quizzesCompleted newStats))
       (unlockBadge now "quiz_master") ;;
  when (Key.eqb stat Key.flashcardsReviewed
        && (50 <=? Stats.flashcardsReviewed newStats))
       (unlockBadge now "flashcard_fan") ;;
  when (Key.eqb stat Key.studyPlansCreated
        && (Stats.studyPlansCreated newStats =? 1))
       (unlockBadge now "study_planner") ;;
  when (Key.eqb stat Key.doubtsAsked
        && (10 <=? Stats.doubtsAsked newStats))
       (unlockBadge now "doubt_solver") ;;
  when (Key.eqb stat Key.imagesUploaded
        && (5 <=? Stats.imagesUploaded newStats))
       (unlockBadge now "ocr_explorer").

(** The store as [create] builds it on the day [d]. *)
Definition initialState (stamp : string) (d : Day) : GameState :=
  mkState
    (User.mk "user-1" "Learner" None 0 1 0 d [] stamp)
    BADGES DAILY_MISSIONS
    (Stats.mk 0 0 0 0 0 0 0).

(** ** Notions used in the statements *)

(** [badges.find(b => b.id === badgeId)] *)
Definition findBadge (badgeId : string) (bs : list Badge.t)
    : option Badge.t :=
  find (fun b => Badge.id b =? badgeId)%string bs.

(** The badge that [unlockBadge badgeId] would unlock: the first one with
    that identifier, provided it is still locked. *)
Definition lockedBadge (badgeId : string) (s : GameState)
    : option Badge.t :=
  match findBadge badgeId (badges s) with
  | Some b => if Badge.unlocked b then None else Some b
  | None => None
  end.

(** The badge list after [badgeId] has been unlocked at [stamp]. *)
Definition markUnlocked (stamp badgeId : string) (bs : list Badge.t)
    : list Badge.t :=
  map (fun b => if (Badge.id b =? badgeId)%string
                then Badge.unlock_at b stamp else b) bs.

(** The time value of [h]:[m] on the day [d]. *)
Definition timeOn (d : Day) (h m : Z) : Z :=
  d * msPerDay + h * msPerHour + m * msPerMinute.

(** A time zone with a fixed offset, and UTC itself. *)
Definition fixedZone (offset : Z) : TimeZone :=
  {| offsetOfUTC := fun _ => offset; offsetOfLocal := fun _ => offset |}.
Definition utc : TimeZone := fixedZone 0.

(** America/New_York in 2024: UTC-5, and UTC-4 from 2024-03-10 07:00 UTC
    (02:00 local, which becomes 03:00) until 2024-11-03 06:00 UTC (02:00
    local, which becomes 01:00).  A local time that the spring change
    skips or the autumn change repeats takes the offset from before the
    change, as LocalTZA(t, false) prescribes. *)
Definition newYork : TimeZone :=
  {| offsetOfUTC := fun t =>
       if (timeOn 19792 7 0 <=? t) && (t <? timeOn 20030 6 0)
       then -4 * msPerHour else -5 * msPerHour;
     offsetOfLocal := fun t =>
       if (timeOn 19792 3 0 <=? t) && (t <? timeOn 20030 2 0)
       then -4 * msPerHour else -5 * msPerHour |}.

(** Sample readings of the clock and sample states for the examples. *)
Definition monday : Clock :=
  {| isoString := "2024-01-01T09:30:00.000Z";
     instant := timeOn 19723 9 30; zone := utc |}.
Definition mondayEvening : Clock :=
  {| isoString := "2024-01-01T21:05:00.000Z";
     instant := timeOn 19723 21 5; zone := utc |}.
Definition tuesday : Clock :=
  {| isoString := "2024-01-02T08:00:00.000Z";
     instant := timeOn 19724 8 0; zone := utc |}.

(** The day the clocks go forward in New York, 2024-03-10 (day 19792), at
    11:00 and at 19:30 local time, and the day they go back, 2024-11-03
    (day 20030), at 19:30 local time, which is already 2024-11-04 in
    UTC. *)
Definition springMorning : Clock :=
  {| isoString := "2024-03-10T15:00:00.000Z";
     instant := timeOn 19792 15 0; zone := newYork |}.
Definition springEvening : Clock :=
  {| isoString := "2024-03-10T23:30:00.000Z";
     instant := timeOn 19792 23 30; zone := newYork |}.
Definition autumnEvening : Clock :=
  {| isoString := "2024-11-04T00:30:00.000Z";
     instant := timeOn 20031 0 30; zone := newYork |}.

(** The change of the offset between the local time of one day earlier and
    now; zero away from daylight-saving changes. *)
Definition offsetChange (now : Clock) : Z :=
  offsetOfUTC (zone now) (instant now)
  - offsetOfLocal (zone now)
      (LocalTime (zone now) (instant now) - msPerDay).

(** A reading at which stepping back one local day is stepping back 24
    hours. *)
Definition steady (now : Clock) : Prop := offsetChange now = 0.

Definition newcomer : GameState :=
  initialState "2024-01-01T09:00:00.000Z" 19723.

(** [s] with the streak of its user replaced. *)
Definition withStreak (st : Z) (s : GameState) : GameState :=
  mkState (User.with_streak_date (user s) st (User.lastActiveDate (user s)))
          (badges s) (missions s) (stats s).

(** [s] with the streak and the last active date of its user replaced. *)
Definition lastSeen (st : Z) (d : Day) (s : GameState) : GameState :=
  mkState (User.with_streak_date (user s) st d)
          (badges s) (missions s) (stats s).

(** The streak rule in the words of the specification: one more when the
    learner was last active yesterday, unchanged when already active
    today, back to 1 otherwise. *)
Definition rolledStreak (today last streak : Z) : Z :=
  if last =? today - 1 then streak + 1
  else if last =? today then streak
  else 1.

(** The multiplier tiers in the words of the specification, evaluated from
    the highest threshold downward. *)
Definition streakMultiplier (streak : Z) : Q :=
  if 30 <=? streak then 2
  else if 14 <=? streak then 7 # 4
  else if 7 <=? streak then 3 # 2
  else if 3 <=? streak then 5 # 4
  else 1.

(** The same tiers counted in quarters: 2.00 is 8/4, 1.75 is 7/4, ... *)
Definition streakQuarters (streak : Z) : Z :=
  if 30 <=? streak then 8
  else if 14 <=? streak then 7
  else if 7 <=? streak then 6
  else if 3 <=? streak then 5
  else 4.

(** The base amount that [addXP] resolves. *)
Definition baseAmount (type : XPEventType) (customAmount : option Z) : Z :=
  match customAmount with Some a => a | None => XP_REWARDS type end.

(** What [unlockBadge badgeId] adds to the XP in [s]: the reward of the
    badge when it is known and locked, nothing otherwise. *)
Definition badgeBonus (badgeId : string) (s : GameState) : Z :=
  match lockedBadge badgeId s with
  | Some b => Badge.xpReward b
  | None => 0
  end.

(** The missions that [updateMissionProgress type] touches: those of the
    category that are not completed yet. *)
Definition advances (type : MissionType) (m : Mission.t) : bool :=
  MissionType_eqb (Mission.type m) type && negb (Mission.completed m).

(** What the [map] callback of [updateMissionProgress] returns for [m]. *)
Definition advanced (type : MissionType) (amount : Z) (m : Mission.t)
    : Mission.t :=
  if advances type m then
    let newProgress :=
      Z.min (Mission.progress m + amount) (Mission.target m) in
    Mission.with_progress m newProgress (Mission.target m <=? newProgress)
  else m.

(** Whether the callback reaches its [addXP] call for [m]: the completion
    award of the mission is triggered. *)
Definition completes (type : MissionType) (amount : Z) (m : Mission.t)
    : bool :=
  advances type m
  && (Mission.target m
      <=? Z.min (Mission.progress m + amount) (Mission.target m)).

(** [addXP('complete_mission', r)] for each reward of the list in turn. *)
Fixpoint awardAll (now : Clock) (rewards : list Z) : Store unit :=
  match rewards with
  | [] => ret tt
  | r :: rs => addXP now complete_mission (Some r) ;; awardAll now rs
  end.

(** The XP that [addXP('complete_mission', m.xpReward)] gains in [s]. *)
Definition missionGain (s : GameState) (m : Mission.t) : Z :=
  Qfloor (inject_Z (Mission.xpReward m)
          * streakMultiplier (User.streak (user s))).

Definition sumZ (l : list Z) : Z := fold_right Z.add 0 l.

(** The reward of the level-10 badge when it is locked in [s] and no
    longer locked in [s']. *)
Definition level10Bonus (s s' : GameState) : Z :=
  match lockedBadge "level_10" s, lockedBadge "level_10" s' with
  | Some b, None => Badge.xpReward b
  | _, _ => 0
  end.





(** The invariant of a mission between two calls: the progress is within
    the target and [completed] says whether it has reached it. *)
Definition wellFormed (m : Mission.t) : Prop :=
  Mission.progress m <= Mission.target m /\
  Mission.completed m = (Mission.target m <=? Mission.progress m).




(** The threshold rules of [incrementStat] as the table of the
    specification: counter, badge, threshold and comparison ("equals" for
    the first-occurrence badges, "at least" for the cumulative ones). *)
Inductive Comparator := Equals | AtLeast.

Record Rule := {
  ruleBadge : string;
  ruleThreshold : Z;
  ruleComparator : Comparator
}.

Definition thresholdRule (stat : Key.t) : Rule :=
  match stat with
  | Key.stepsSubmitted => {| ruleBadge := "first_step"; ruleThreshold := 1;
                             ruleComparator := Equals |}
  | Key.correctSteps => {| ruleBadge := "correct_step"; ruleThreshold := 1;
                           ruleComparator := Equals |}
  | Key.quizzesCompleted => {| ruleBadge := "quiz_master"; ruleThreshold := 5;
                               ruleComparator := AtLeast |}
  | Key.flashcardsReviewed => {| ruleBadge := "flashcard_fan";
                                 ruleThreshold := 50;
                                 ruleComparator := AtLeast |}
  | Key.studyPlansCreated => {| ruleBadge := "study_planner";
                                ruleThreshold := 1;
                                ruleComparator := Equals |}
  | Key.doubtsAsked => {| ruleBadge := "doubt_solver"; ruleThreshold := 10;
                          ruleComparator := AtLeast |}
  | Key.imagesUploaded => {| ruleBadge := "ocr_explorer"; ruleThreshold := 5;
                             ruleComparator := AtLeast |}
  end.

Definition satisfied (r : Rule) (value : Z) : bool :=
  match ruleComparator r with
  | Equals => value =? ruleThreshold r
  | AtLeast => ruleThreshold r <=? value
  end.

(** [n] calls of [incrementStat stat] in a row. *)
Fixpoint incrementTimes (now : Clock) (stat : Key.t) (n : nat)
    : Store unit :=
  match n with
  | O => ret tt
  | S n' => incrementStat now stat ;; incrementTimes now stat n'
  end.

(** ** The rest of the store: getters, session and whole runs *)

Definition getLevelTitle (level : Z) : string :=
  if level <=? 5 then "Novice Learner"
  else if level <=? 10 then "Curious Student"
  else if level <=? 20 then "Knowledge Seeker"
  else if level <=? 35 then "Wisdom Gatherer"
  else if level <=? 50 then "Expert Scholar"
  else if level <=? 75 then "Master Mind"
  else "Knowledge Legend".

(** The result of [getLevelProgress]. [current] and [next] are integers;
    [progress] is the quotient [current / next * 100] as a rational, before
    JavaScript rounds it to a double. *)
Record LevelProgress := {
  current : Z;
  next : Z;
  progress : Q
}.

Definition getLevelProgress : Store LevelProgress :=
  state <- get ;;
  let xp := User.xp (user state) in
  let level := User.level (user state) in
  let currentLevelXP := (level - 1) ^ 2 * 100 in
  let nextLevelXP := level ^ 2 * 100 in
  let progress :=
    (inject_Z (xp - currentLevelXP)
     / inject_Z (nextLevelXP - currentLevelXP) * 100)%Q in
  ret {| current := xp - currentLevelXP;
         next := nextLevelXP - currentLevelXP;
         progress := progress |}.

(** The argument of [setUser]: of the fields of [User] its type leaves
    [name] and [avatar], each of them optional. *)
Record UserUpdates := {
  newName : option string;
  newAvatar : option (option string)
}.

(** [set((state) => ({ user: { ...state.user, ...updates } }))] *)
Definition setUser (updates : UserUpdates) : Store unit :=
  state <- get ;;
  let u := user state in
  set_user
    (User.mk (User.id u)
       (match newName updates with Some n => n | None => User.name u end)
       (match newAvatar updates with Some a => a | None => User.avatar u end)
       (User.xp u) (User.level u) (User.streak u) (User.lastActiveDate u)
       (User.badges u) (User.createdAt u)).

(** The browser as the store sees it: the game state, and the item
    'auth-session' of [localStorage] (absent, or its string). *)
Record World := {
  game : GameState;
  authSession : option string
}.

(** [!!localStorage.getItem('auth-session')]: the item is there and is not
    the empty string. *)
Definition isAuthenticated (w : World) : bool :=
  match authSession w with
  | Some v => negb (v =? "")%string
  | None => false
  end.

(** [logout]: [localStorage.removeItem('auth-session')], then the user is
    set back to the one of a new store; badges, missions and stats are not
    in the [set]. *)
Definition logout (now : Clock) (w : World) : World :=
  {| game := exec (set_user (User.mk "user-1" "Learner" None 0 1 0
                               (today now) [] (isoString now)))
                  (game w);
     authSession := None |}.

(** A store action run in the browser. *)
Definition onGame {A} (c : Store A) (w : World) : World :=
  {| game := exec c (game w); authSession := authSession w |}.

(** The calls a page can make on the store, and runs of them. *)
Inductive Action :=
| DoAddXP (type : XPEventType) (customAmount : option Z)
| DoUpdateStreak
| DoUnlockBadge (badgeId : string)
| DoUpdateMissionProgress (type : MissionType) (amount : Z)
| DoResetDailyMissions
| DoIncrementStat (stat : Key.t)
| DoSetUser (updates : UserUpdates)
| DoLogout.

Record Step := {
  clock : Clock;
  action : Action
}.

Definition perform (st : Step) (w : World) : World :=
  match action st with
  | DoAddXP type customAmount => onGame (addXP (clock st) type customAmount) w
  | DoUpdateStreak => onGame (updateStreak (clock st)) w
  | DoUnlockBadge badgeId => onGame (unlockBadge (clock st) badgeId) w
  | DoUpdateMissionProgress type amount =>
      onGame (updateMissionProgress (clock st) type amount) w
  | DoResetDailyMissions => onGame resetDailyMissions w
  | DoIncrementStat stat => onGame (incrementStat (clock st) stat) w
  | DoSetUser updates => onGame (setUser updates) w
  | DoLogout => logout (clock st) w
  end.

Definition performAll (steps : list Step) (w : World) : World :=
  fold_left (fun w st => perform st w) steps w.

(** A step that hands [addXP] an amount hands it one that satisfies [B]. *)
Definition admissible (B : Z -> Prop) (st : Step) : Prop :=
  match action st with
  | DoAddXP _ (Some a) => B a
  | _ => True
  end.

(** A step that hands [addXP] an amount hands it a non-negative one. *)
Definition nonnegAmount (st : Step) : Prop :=
  match action st with
  | DoAddXP _ (Some a) => 0 <= a
  | _ => True
  end.

Definition isLogout (st : Step) : bool :=
  match action st with DoLogout => true | _ => false end.

(** No reward of a badge or a mission is negative. *)
Definition rewardsNonneg (s : GameState) : Prop :=
  Forall (fun b => 0 <= Badge.xpReward b) (badges s) /\
  Forall (fun m => 0 <= Mission.xpReward m) (missions s).

(** The stored level is a level, and not above the level of the XP. *)
Definition levelWithinXP (s : GameState) : Prop :=
  0 <= User.xp (user s) /\
  1 <= User.level (user s) /\
  User.level (user s) <= calculateLevel (User.xp (user s)).

(** The badge identifiers of the user are distinct and each names a badge
    of the list that is unlocked. *)
Definition ownedUnlocked (s : GameState) : Prop :=
  NoDup (User.badges (user s)) /\
  forall badgeId, In badgeId (User.badges (user s)) ->
    exists b, findBadge badgeId (badges s) = Some b /\
              Badge.unlocked b = true.

(** What a badge of the list may become: the same badge, identifier and
    reward unchanged, and unlocked if it was. *)
Definition keepsBadge (before after : Badge.t) : Prop :=
  Badge.id after = Badge.id before /\
  Badge.xpReward after = Badge.xpReward before /\
  (Badge.unlocked before = true -> Badge.unlocked after = true).

(** A new store in its browser. *)
Definition freshWorld : World :=
  {| game := newcomer; authSession := None |}.

(** [updateStreak] at each reading of a list of clock readings in turn, as
    the layout does on every mount. *)
Fixpoint visits (clocks : list Clock) : Store unit :=
  match clocks with
  | [] => ret tt
  | c :: cs => updateStreak c ;; visits cs
  end.

(** Readings that follow the day [d] without a gap: each falls on the day
    of the one before (at first, [d]) or on the next day. *)
Fixpoint withoutGap (d : Day) (clocks : list Clock) : Prop :=
  match clocks with
  | [] => True
  | c :: cs => (today c = d \/ today c = d + 1) /\ withoutGap (today c) cs
  end.

(** The day of the last reading ([d] when there is none). *)
Fixpoint lastDay (d : Day) (clocks : list Clock) : Day :=
  match clocks with
  | [] => d
  | c :: cs => lastDay (today c) cs
  end.

(** The gamification block of [handleSendMessage] in the doubt solver, run
    once the tutor has answered; [withSolution] says whether
    [solution.trim()] is non-empty.  The result is the [xpGained] that the
    toast reports. *)
Definition rewardSolvedDoubt (now : Clock) (withSolution : bool)
    : Store Z :=
  r <- addXP now correct_step (Some 20) ;;
  incrementStat now Key.doubtsAsked ;;
  when withSolution (incrementStat now Key.stepsSubmitted) ;;
  updateMissionProgress now doubt 1 ;;
  ret (xpGained r).

(** The level titles by cumulative XP. *)
Definition titleOfXP (xp : Z) : string :=
  if xp <? 2500 then "Novice Learner"
  else if xp <? 10000 then "Curious Student"
  else if xp <? 40000 then "Knowledge Seeker"
  else if xp <? 122500 then "Wisdom Gatherer"
  else if xp <? 250000 then "Expert Scholar"
  else if xp <? 562500 then "Master Mind"
  else "Knowledge Legend".

(** ** generateStudyPlan: from the parsed plan to the schedule

    The part of [generateStudyPlan] after [JSON.parse]: the parsed array
    is checked, grouped by date in a [Map] and sorted by date.  The items
    are taken as typed records; [chapterIndex] is an integer. *)

Inductive Difficulty := easy | medium | hard.

Module Chapter.
Record t := mk {
  name : string;
  difficulty : Difficulty
}.
End Chapter.

Module Item.
Record t := mk {
  date : string;
  chapterIndex : Z;
  hoursAllocated : Q;
  topic : string
}.
End Item.

Module Task.
Record t := mk {
  chapterId : string;
  chapterName : string;
  subject : string;
  hours : Q;
  completed : bool
}.
End Task.

Module ScheduleDay.
Record t := mk {
  date : string;
  tasks : list Task.t
}.
End ScheduleDay.

(** [chapters[i]]: undefined outside the array. *)
Definition chapterAt (chapters : list Chapter.t) (i : Z)
    : option Chapter.t :=
  if i <? 0 then None else nth_error chapters (Z.to_nat i).

(** A [Map] with string keys, as the list of its entries in insertion
    order. *)
Definition DateMap := list (string * list Task.t).

Definition mapHas (date : string) (m : DateMap) : bool :=
  existsb (fun e => (fst e =? date)%string) m.

Definition mapGet (date : string) (m : DateMap) : option (list Task.t) :=
  option_map snd (find (fun e => (fst e =? date)%string) m).

(** [m.set(date, v)]: a new key goes to the end, an old one keeps its
    place. *)
Definition mapSet (date : string) (v : list Task.t) (m : DateMap)
    : DateMap :=
  if mapHas date m
  then map (fun e => if (fst e =? date)%string then (date, v) else e) m
  else (m ++ [(date, v)])%list.

(** [m.get(date)!.push(task)]: the array stored under [date] grows in
    place. *)
Definition mapPush (date : string) (task : Task.t) (m : DateMap)
    : DateMap :=
  map (fun e => if (fst e =? date)%string
                then (fst e, (snd e ++ [task])%list) else e) m.

(** The number in a template string, for an integer. *)
Definition numberToString (n : Z) : string :=
  NilZero.string_of_int (Z.to_int n).

(** The body of [schedulePlan.forEach]. *)
Definition addItem (subject : string) (chapters : list Chapter.t)
    (scheduleMap : DateMap) (item : Item.t) : DateMap :=
  let date := Item.date item in
  let scheduleMap :=
    if negb (mapHas date scheduleMap) then mapSet date [] scheduleMap
    else scheduleMap in
  match chapterAt chapters (Item.chapterIndex item) with
  | Some chapter =>
      mapPush date
        (Task.mk ("ch-" ++ numberToString (Item.chapterIndex item))
                 (Chapter.name chapter) subject
                 (Item.hoursAllocated item) false)
        scheduleMap
  | None => scheduleMap
  end.

(** [xs.sort(compare)]: the sort is stable, so for a comparator that
    orders its arguments consistently the result is the one of any stable
    sort; it is computed here by insertion from the right. *)
Fixpoint insertBy {A} (compare : A -> A -> Z) (x : A) (l : list A)
    : list A :=
  match l with
  | [] => [x]
  | y :: l' =>
      if compare x y <=? 0 then x :: y :: l'
      else y :: insertBy compare x l'
  end.

Definition sortBy {A} (compare : A -> A -> Z) (l : list A) : list A :=
  fold_right (insertBy compare) [] l.

(** The schedule of a parsed plan, or the message of the error thrown.
    [localeCompare] stands for [String.prototype.localeCompare]. *)
Definition scheduleOfPlan (localeCompare : string -> string -> Z)
    (subject : string) (chapters : list Chapter.t)
    (schedulePlan : list Item.t) : string + list ScheduleDay.t :=
  if (List.length schedulePlan =? 0)%nat
  then inl "No study plan generated"
  else
    let scheduleMap :=
      fold_left (addItem subject chapters) schedulePlan [] in
    inr (sortBy (fun a b => localeCompare (ScheduleDay.date a)
                                          (ScheduleDay.date b))
           (map (fun e => ScheduleDay.mk (fst e) (snd e)) scheduleMap)).

(** The tasks that the items of a plan give to one date, in the order of
    the items: one for every item of that date whose chapter exists. *)
Definition tasksOn (subject : string) (chapters : list Chapter.t)
    (date : string) (items : list Item.t) : list Task.t :=
  flat_map
    (fun item =>
       if (Item.date item =? date)%string then
         match chapterAt chapters (Item.chapterIndex item) with
         | Some chapter =>
             [Task.mk ("ch-" ++ numberToString (Item.chapterIndex item))
                      (Chapter.name chapter) subject
                      (Item.hoursAllocated item) false]
         | None => []
         end
       else [])
    items.

(** Comparison of strings by their characters, as a comparator. *)
Definition compareStrings (a b : string) : Z :=
  match String.compare a b with
  | Lt => -1
  | Eq => 0
  | Gt => 1
  end.

(** ** The toast store ([use-toast.ts])

    A toast carries its identifier, its texts and whether it is open; the
    React elements and callbacks it also carries take no part in the
    reducer and are left out. *)

Module Toast.
Record t := mk {
  id : string;
  title : option string;
  description : option string;
  variant : option string;
  open : option bool
}.
End Toast.

(** [Partial<ToasterToast>]: the properties that are given. *)
Module ToastPatch.
Record t := mk {
  id : option string;
  title : option string;
  description : option string;
  variant : option string;
  open : option bool
}.
End ToastPatch.

(** [{ ...t, ...patch }] *)
Definition patchToast (t : Toast.t) (patch : ToastPatch.t) : Toast.t :=
  Toast.mk
    (match ToastPatch.id patch with
     | Some v => v | None => Toast.id t end)
    (match ToastPatch.title patch with
     | Some v => Some v | None => Toast.title t end)
    (match ToastPatch.description patch with
     | Some v => Some v | None => Toast.description t end)
    (match ToastPatch.variant patch with
     | Some v => Some v | None => Toast.variant t end)
    (match ToastPatch.open patch with
     | Some v => Some v | None => Toast.open t end).

Definition TOAST_LIMIT : nat := 1.

Inductive ToastAction :=
| ADD_TOAST (toast : Toast.t)
| UPDATE_TOAST (toast : ToastPatch.t)
| DISMISS_TOAST (toastId : option string)
| REMOVE_TOAST (toastId : option string).

(** The state of the module: the toasts shown, and the keys of
    [toastTimeouts], the identifiers whose removal is scheduled. *)
Record ToastState := {
  toasts : list Toast.t;
  toastTimeouts : list string
}.

(** [addToRemoveQueue]: nothing if the removal is scheduled already. *)
Definition addToRemoveQueue (toastId : string) (timeouts : list string)
    : list string :=
  if existsb (String.eqb toastId) timeouts then timeouts
  else (timeouts ++ [toastId])%list.

(** [t.id === toastId] for a [toastId] that may be undefined. *)
Definition isToast (toastId : option string) (t : Toast.t) : bool :=
  match toastId with
  | Some i => (Toast.id t =? i)%string
  | None => false
  end.

Definition reducer (state : ToastState) (action : ToastAction)
    : ToastState :=
  match action with
  | ADD_TOAST toast =>
      {| toasts := firstn TOAST_LIMIT (toast :: toasts state);
         toastTimeouts := toastTimeouts state |}
  | UPDATE_TOAST toast =>
      {| toasts := map (fun t => if isToast (ToastPatch.id toast) t
                                 then patchToast t toast else t)
                       (toasts state);
         toastTimeouts := toastTimeouts state |}
  | DISMISS_TOAST toastId =>
      let scheduled :=
        match toastId with
        | Some i =>
            (* if (toastId): the empty string counts as no identifier *)
            if (i =? "")%string
            then fold_left (fun q t => addToRemoveQueue (Toast.id t) q)
                           (toasts state) (toastTimeouts state)
            else addToRemoveQueue i (toastTimeouts state)
        | None =>
            fold_left (fun q t => addToRemoveQueue (Toast.id t) q)
                      (toasts state) (toastTimeouts state)
        end in
      {| toasts :=
           map (fun t =>
                  if isToast toastId t
                     || (match toastId with None => true | Some _ => false end)
                  then Toast.mk (Toast.id t) (Toast.title t)
                         (Toast.description t) (Toast.variant t) (Some false)
                  else t)
               (toasts state);
         toastTimeouts := scheduled |}
  | REMOVE_TOAST None =>
      {| toasts := []; toastTimeouts := toastTimeouts state |}
  | REMOVE_TOAST (Some i) =>
      {| toasts := filter (fun t => negb (Toast.id t =? i)%string)
                          (toasts state);
         toastTimeouts := toastTimeouts state |}
  end.

(** [dispatch] for each action of a list in turn. *)
Definition dispatchAll (actions : list ToastAction) (state : ToastState)
    : ToastState :=
  fold_left reducer actions state.

(** The callback of the timeout set by [addToRemoveQueue]:
    [toastTimeouts.delete(toastId)], then [REMOVE_TOAST] is dispatched. *)
Definition timeoutFires (toastId : string) (state : ToastState)
    : ToastState :=
  reducer
    {| toasts := toasts state;
       toastTimeouts :=
         filter (fun i => negb (i =? toastId)%string) (toastTimeouts state) |}
    (REMOVE_TOAST (Some toastId)).

(** [memoryState] and [toastTimeouts] when the module is loaded. *)
Definition noToasts : ToastState :=
  {| toasts := []; toastTimeouts := [] |}.

(** ** validateEmail (login page)

    [/^[^\s@]+@[^\s@]+\.[^\s@]+$/.test(email)].  A JavaScript string is
    the list of its UTF-16 code units, and the regular expression is
    matched by derivatives; with [^] and [$] the whole string has to
    match. *)

Definition CodeUnit := N.

Inductive Regex :=
| Never
| Epsilon
| Class (p : CodeUnit -> bool)
| Seq (r1 r2 : Regex)
| Alt (r1 r2 : Regex)
| Star (r : Regex).

(** [r+] *)
Definition Plus (r : Regex) : Regex := Seq r (Star r).

Fixpoint nullable (r : Regex) : bool :=
  match r with
  | Never => false
  | Epsilon => true
  | Class _ => false
  | Seq r1 r2 => nullable r1 && nullable r2
  | Alt r1 r2 => nullable r1 || nullable r2
  | Star _ => true
  end.

Fixpoint derive (c : CodeUnit) (r : Regex) : Regex :=
  match r with
  | Never => Never
  | Epsilon => Never
  | Class p => if p c then Epsilon else Never
  | Seq r1 r2 =>
      if nullable r1
      then Alt (Seq (derive c r1) r2) (derive c r2)
      else Seq (derive c r1) r2
  | Alt r1 r2 => Alt (derive c r1) (derive c r2)
  | Star r1 => Seq (derive c r1) (Star r1)
  end.

(** [/^r$/.test(s)] *)
Definition test (r : Regex) (s : list CodeUnit) : bool :=
  nullable (fold_left (fun r c => derive c r) s r).

(** The strings of a regular expression. *)
Inductive Matches : Regex -> list CodeUnit -> Prop :=
| MEpsilon : Matches Epsilon []
| MClass p c : p c = true -> Matches (Class p) [c]
| MSeq r1 r2 s1 s2 :
    Matches r1 s1 -> Matches r2 s2 -> Matches (Seq r1 r2) (s1 ++ s2)
| MAltL r1 r2 s : Matches r1 s -> Matches (Alt r1 r2) s
| MAltR r1 r2 s : Matches r2 s -> Matches (Alt r1 r2) s
| MStarNil r : Matches (Star r) []
| MStarCons r s1 s2 :
    Matches r s1 -> Matches (Star r) s2 -> Matches (Star r) (s1 ++ s2).

(** [\s]: the white space and line terminator code units of ECMAScript. *)
Definition isWhiteSpace (c : CodeUnit) : bool :=
  existsb (N.eqb c)
    [9; 10; 11; 12; 13; 32; 160; 5760; 8232; 8233; 8239; 8287; 12288;
     65279]%N
  || ((8192 <=? c)%N && (c <=? 8202)%N).

Definition atSign : CodeUnit := 64%N.
Definition dot : CodeUnit := 46%N.

(** [[^\s@]] *)
Definition plain (c : CodeUnit) : bool :=
  negb (isWhiteSpace c || (c =? atSign)%N).

Definition emailRegex : Regex :=
  Seq (Plus (Class plain))
    (Seq (Class (N.eqb atSign))
       (Seq (Plus (Class plain))
          (Seq (Class (N.eqb dot)) (Plus (Class plain))))).

Definition validateEmail (email : list CodeUnit) : bool :=
  test emailRegex email.

(** The code units of a string of ASCII characters. *)
Definition codeUnits (s : string) : list CodeUnit :=
  map Ascii.N_of_ascii (list_ascii_of_string s).

(** Sample runs and inputs for the instances. *)
Definition step (now : Clock) (a : Action) : Step :=
  {| clock := now; action := a |}.

Definition sampleRun : list Step :=
  [ step monday DoUpdateStreak;
    step monday (DoAddXP complete_quiz None);
    step monday (DoIncrementStat Key.quizzesCompleted);
    step monday (DoUpdateMissionProgress quiz 2);
    step mondayEvening (DoUnlockBadge "perfect_score");
    step mondayEvening (DoSetUser {| newName := Some "Ada"; newAvatar := None |});
    step tuesday DoUpdateStreak;
    step tuesday (DoAddXP correct_step (Some 20));
    step tuesday DoResetDailyMissions ].

Definition sampleChapters : list Chapter.t :=
  [ Chapter.mk "Algebra" easy; Chapter.mk "Geometry" hard ].

Definition samplePlan : list Item.t :=
  [ Item.mk "2025-12-16" 1 2 "Triangles";
    Item.mk "2025-12-15" 0 (3 # 2) "Equations";
    Item.mk "2025-12-16" 7 1 "Revision";
    Item.mk "2025-12-14" (-1) 1 "Warm-up";
    Item.mk "2025-12-15" 1 1 "Circles" ].

Definition sampleToast : Toast.t :=
  Toast.mk "7" (Some "XP Gained!") (Some "You earned 20 XP for solving a doubt.")
    None (Some true).

Definition sampleToasts : ToastState :=
  {| toasts := [Toast.mk "6" (Some "Error") None (Some "destructive")
                  (Some true)];
     toastTimeouts := ["3"] |}.

(** ** Levels *)

Lemma calculateLevel_bracket (xp : Z) :
  0 <= xp ->
  (calculateLevel xp - 1) ^ 2 * 100 <= xp < calculateLevel xp ^ 2 * 100.
Proof.
  intros Hxp. unfold calculateLevel.
  assert (Hq : 0 <= xp / 100) by (apply Z.div_pos; lia).
  pose proof (Z.sqrt_spec (xp / 100) Hq) as [Hlo Hhi].
  pose proof (Z.mul_div_le xp 100 ltac:(lia)) as Hdl.
  pose proof (Z.mul_succ_div_gt xp 100 ltac:(lia)) as Hdu.
  replace (Z.sqrt (xp / 100) + 1 - 1) with (Z.sqrt (xp / 100)) by lia.
  rewrite !Z.pow_2_r. unfold Z.succ in *. split; nia.
Qed.

Lemma calculateLevel_unique (xp l : Z) :
  0 <= xp -> 0 < l -> (l - 1) ^ 2 * 100 <= xp < l ^ 2 * 100 ->
  calculateLevel xp = l.
Proof.
  intros Hxp Hl Hb.
  pose proof (calculateLevel_bracket xp Hxp) as Hc.
  assert (Hpos : 0 < calculateLevel xp)
    by (unfold calculateLevel; pose proof (Z.sqrt_nonneg (xp / 100)); lia).
  rewrite !Z.pow_2_r in *. nia.
Qed.

Lemma calculateLevel_positive (xp : Z) : 0 < calculateLevel xp.
Proof.
  unfold calculateLevel. pose proof (Z.sqrt_nonneg (xp / 100)). lia.
Qed.

Lemma calculateLevel_le (xp1 xp2 : Z) :
  xp1 <= xp2 -> calculateLevel xp1 <= calculateLevel xp2.
Proof.
  intros H. unfold calculateLevel.
  apply Z.add_le_mono_r, Z.sqrt_le_mono, Z.div_le_mono; lia.
Qed.

(** [calculateLevel] against the formula read over the real numbers:
    [calculateLevel xp - 1] is the floor of [sqrt (xp / 100)]. *)
Lemma calculateLevel_real (xp : Z) :
  0 <= xp ->
  (IZR (calculateLevel xp) - 1 <= sqrt (IZR xp / 100)
   < IZR (calculateLevel xp))%R.
Proof.
  intros Hxp.
  pose proof (calculateLevel_bracket xp Hxp) as [Hlo Hhi].
  pose proof (calculateLevel_positive xp) as Hpos.
  set (l := calculateLevel xp) in *.
  apply IZR_le in Hlo. apply IZR_lt in Hhi.
  rewrite mult_IZR, Z.pow_2_r, mult_IZR in Hlo, Hhi.
  rewrite minus_IZR in Hlo.
  assert (Hb : (1 <= IZR l)%R) by (apply IZR_le; lia).
  split.
  - rewrite <- (sqrt_square (IZR l - 1)) by lra.
    apply sqrt_le_1_alt. lra.
  - rewrite <- (sqrt_square (IZR l)) by lra.
    apply sqrt_lt_1_alt. split; [|lra].
    apply Rle_trans with ((IZR l - 1) * (IZR l - 1))%R; [nra | lra].
Qed.

(** C9. The level is monotone in the cumulative XP and always a positive
    integer: for [0 <= xp1 <= xp2], [calculateLevel xp1 <= calculateLevel
    xp2]; and [calculateLevel xp] is [floor(sqrt(xp / 100)) + 1], the level
    [l] with [(l - 1)^2 * 100 <= xp < l^2 * 100]. *)
Theorem calculateLevel_monotone (xp1 xp2 : Z) :
  0 <= xp1 -> xp1 <= xp2 ->
  calculateLevel xp1 <= calculateLevel xp2 /\
  0 < calculateLevel xp1 /\
  0 < calculateLevel xp2 /\
  (calculateLevel xp1 - 1) ^ 2 * 100 <= xp1 < calculateLevel xp1 ^ 2 * 100 /\
  (IZR (calculateLevel xp1) - 1 <= sqrt (IZR xp1 / 100)
   < IZR (calculateLevel xp1))%R.
Proof.
  intros H0 Hle.
  split; [apply calculateLevel_le, Hle|].
  split; [apply calculateLevel_positive|].
  split; [apply calculateLevel_positive|].
  split; [apply calculateLevel_bracket, H0 | apply calculateLevel_real, H0].
Qed.

(** ** The store monad: how actions run *)

(** Case analysis on every test of a conditional in the goal. *)
Ltac break_ifs :=
  repeat match goal with
         | |- context [if ?c then _ else _] => destruct c
         end.

Lemma exec_when {A} (c : bool) (body : Store A) s :
  exec (when c body) s = if c then exec body s else s.
Proof.
  unfold exec, when, bind, ret. destruct c; [|reflexivity].
  destruct (body s). reflexivity.
Qed.

Lemma bind_run {A B} (c : Store A) (k : A -> Store B) s :
  bind c k s = k (eval c s) (exec c s).
Proof. unfold exec, eval, bind. destruct (c s). reflexivity. Qed.

Lemma when_run {A} (c : bool) (body : Store A) s :
  when c body s = (tt, if c then exec body s else s).
Proof.
  unfold when. destruct c; [|reflexivity].
  rewrite bind_run. reflexivity.
Qed.

Lemma exec_bind {A B} (c : Store A) (k : A -> Store B) s :
  exec (bind c k) s = exec (k (eval c s)) (exec c s).
Proof. unfold exec, eval, bind. destruct (c s). reflexivity. Qed.

Lemma eval_bind {A B} (c : Store A) (k : A -> Store B) s :
  eval (bind c k) s = eval (k (eval c s)) (exec c s).
Proof. unfold exec, eval, bind. destruct (c s). reflexivity. Qed.

Lemma eval_ret {A} (a : A) s : eval (ret a) s = a.
Proof. reflexivity. Qed.

Lemma exec_ret {A} (a : A) s : exec (ret a) s = s.
Proof. reflexivity. Qed.

(** ** unlockBadge *)

Lemma unlockBadge_locked now badgeId s b :
  lockedBadge badgeId s = Some b ->
  unlockBadge now badgeId s =
    (Some (Badge.as_unlocked b),
     mkState
       (User.with_badges_xp (user s) (User.badges (user s) ++ [badgeId])%list
          (User.xp (user s) + Badge.xpReward b))
       (markUnlocked (isoString now) badgeId (badges s))
       (missions s) (stats s)).
Proof.
  unfold lockedBadge, findBadge, unlockBadge, bind, get. cbn.
  destruct (find _ (badges s)) as [b'|]; [|discriminate].
  destruct (Badge.unlocked b'); [discriminate|].
  intros [= ->]. reflexivity.
Qed.

Lemma unlockBadge_not_locked now badgeId s :
  lockedBadge badgeId s = None ->
  unlockBadge now badgeId s = (None, s).
Proof.
  unfold lockedBadge, findBadge, unlockBadge, bind, get. cbn.
  destruct (find _ (badges s)) as [b'|]; [|reflexivity].
  destruct (Badge.unlocked b'); [reflexivity|discriminate].
Qed.

Lemma findBadge_markUnlocked stamp badgeId bs :
  findBadge badgeId (markUnlocked stamp badgeId bs) =
  option_map (fun b => Badge.unlock_at b stamp) (findBadge badgeId bs).
Proof.
  unfold findBadge, markUnlocked.
  induction bs as [|b bs IH]; [reflexivity|]. cbn.
  destruct (Badge.id b =? badgeId)%string eqn:E; cbn.
  - rewrite E. reflexivity.
  - rewrite E. exact IH.
Qed.

Lemma findBadge_markUnlocked_other stamp badgeId other bs :
  other <> badgeId ->
  findBadge other (markUnlocked stamp badgeId bs) = findBadge other bs.
Proof.
  intros Hne. unfold findBadge, markUnlocked.
  induction bs as [|b bs IH]; [reflexivity|]. cbn.
  destruct (Badge.id b =? badgeId)%string eqn:E; cbn.
  - apply String.eqb_eq in E.
    destruct (Badge.id b =? other)%string eqn:E'.
    + apply String.eqb_eq in E'. congruence.
    + exact IH.
  - destruct (Badge.id b =? other)%string; [reflexivity | exact IH].
Qed.

Lemma lockedBadge_after_unlock now badgeId s :
  lockedBadge badgeId (exec (unlockBadge now badgeId) s) = None.
Proof.
  unfold exec.
  destruct (lockedBadge badgeId s) as [b|] eqn:E.
  - rewrite (unlockBadge_locked now _ _ _ E). unfold lockedBadge.
    cbn [snd badges]. rewrite findBadge_markUnlocked.
    destruct (findBadge badgeId (badges s)); reflexivity.
  - rewrite (unlockBadge_not_locked now _ _ E). exact E.
Qed.

Lemma lockedBadge_None_iff badgeId s :
  lockedBadge badgeId s = None <->
  findBadge badgeId (badges s) = None \/
  exists b, findBadge badgeId (badges s) = Some b /\ Badge.unlocked b = true.
Proof.
  unfold lockedBadge.
  destruct (findBadge badgeId (badges s)) as [b|].
  - destruct (Badge.unlocked b) eqn:E; split; intros H; try discriminate.
    + right. exists b. auto.
    + reflexivity.
    + destruct H as [H | (b' & [= <-] & H)]; congruence.
  - split; auto.
Qed.

Lemma lockedBadge_Some_iff badgeId s b :
  lockedBadge badgeId s = Some b <->
  findBadge badgeId (badges s) = Some b /\ Badge.unlocked b = false.
Proof.
  unfold lockedBadge.
  destruct (findBadge badgeId (badges s)) as [b'|].
  - destruct (Badge.unlocked b') eqn:E; split.
    + discriminate.
    + intros [[= <-] H]. congruence.
    + intros [= <-]. auto.
    + intros [[= <-] _]. reflexivity.
  - split; [discriminate | intros [H _]; discriminate].
Qed.

Lemma unlockBadge_frame now badgeId s :
  let s' := exec (unlockBadge now badgeId) s in
  User.streak (user s') = User.streak (user s) /\
  User.lastActiveDate (user s') = User.lastActiveDate (user s) /\
  User.level (user s') = User.level (user s) /\
  missions s' = missions s /\
  stats s' = stats s.
Proof.
  unfold exec. destruct (lockedBadge badgeId s) as [b|] eqn:E.
  - rewrite (unlockBadge_locked now _ _ _ E). cbn. auto.
  - rewrite (unlockBadge_not_locked now _ _ E). cbn. auto.
Qed.

(** C6. [unlockBadge] on a badge that is unknown or already unlocked
    returns null and leaves the whole state as it was, cumulative XP
    included; in particular this is what a second [unlockBadge] of the
    same badge does, whatever the first call found. *)
Theorem unlockBadge_noop (now : Clock) (badgeId : string) (s : GameState) :
  (findBadge badgeId (badges s) = None \/
   (exists b, findBadge badgeId (badges s) = Some b /\
              Badge.unlocked b = true) \/
   (exists first s0, s = exec (unlockBadge first badgeId) s0)) ->
  unlockBadge now badgeId s = (None, s) /\
  User.xp (user (exec (unlockBadge now badgeId) s)) = User.xp (user s).
Proof.
  intros H.
  assert (E : unlockBadge now badgeId s = (None, s)).
  { apply unlockBadge_not_locked.
    destruct H as [H | [H | (first & s0 & ->)]].
    - apply lockedBadge_None_iff. left. exact H.
    - apply lockedBadge_None_iff. right. exact H.
    - apply lockedBadge_after_unlock. }
  split; [exact E|]. unfold exec. rewrite E. reflexivity.
Qed.

(** C7. On a known badge that is still locked, [unlockBadge] marks it
    unlocked and stamps it with the time of the call, adds the badge's
    [xpReward] to the cumulative XP as it is (no streak multiplier, whatever
    the streak), and returns the badge with [unlocked] set. *)
Theorem unlockBadge_unlocks (now : Clock) (badgeId : string)
    (s : GameState) (b : Badge.t) :
  findBadge badgeId (badges s) = Some b ->
  Badge.unlocked b = false ->
  let s' := exec (unlockBadge now badgeId) s in
  eval (unlockBadge now badgeId) s = Some (Badge.as_unlocked b) /\
  Badge.unlocked (Badge.as_unlocked b) = true /\
  findBadge badgeId (badges s') =
    Some (Badge.unlock_at b (isoString now)) /\
  Badge.unlocked (Badge.unlock_at b (isoString now)) = true /\
  Badge.unlockedAt (Badge.unlock_at b (isoString now)) =
    Some (isoString now) /\
  badges s' = markUnlocked (isoString now) badgeId (badges s) /\
  User.xp (user s') = User.xp (user s) + Badge.xpReward b /\
  (forall st : Z,
     User.xp (user (exec (unlockBadge now badgeId) (withStreak st s))) =
     User.xp (user s) + Badge.xpReward b) /\
  User.badges (user s') = (User.badges (user s) ++ [badgeId])%list /\
  User.streak (user s') = User.streak (user s) /\
  User.lastActiveDate (user s') = User.lastActiveDate (user s) /\
  missions s' = missions s /\
  stats s' = stats s.
Proof.
  intros Hf Hu s'.
  assert (Hl : lockedBadge badgeId s = Some b)
    by (apply lockedBadge_Some_iff; auto).
  assert (Hst : forall st, lockedBadge badgeId (withStreak st s) = Some b)
    by (intros st; exact Hl).
  unfold s', exec, eval. rewrite (unlockBadge_locked now _ _ _ Hl).
  cbn [fst snd user badges missions stats User.xp User.badges User.streak
       User.lastActiveDate User.with_badges_xp].
  rewrite findBadge_markUnlocked, Hf.
  repeat split.
  intros st. rewrite (unlockBadge_locked now _ _ _ (Hst st)). reflexivity.
Qed.

(** C10. A successful [unlockBadge] adds the reward to the cumulative XP
    and leaves the stored [level] as it was: only [addXP] recomputes it.
    So where the stored level was the level of the old XP and the reward
    crosses a level boundary, the stored level is afterwards strictly
    below [floor(sqrt(xp / 100)) + 1] of the new XP. *)
Theorem unlockBadge_keeps_level (now : Clock) (badgeId : string)
    (s : GameState) (b : Badge.t) :
  findBadge badgeId (badges s) = Some b ->
  Badge.unlocked b = false ->
  let s' := exec (unlockBadge now badgeId) s in
  User.level (user s') = User.level (user s) /\
  User.xp (user s') = User.xp (user s) + Badge.xpReward b /\
  (User.level (user s) = calculateLevel (User.xp (user s)) ->
   calculateLevel (User.xp (user s)) <
     calculateLevel (User.xp (user s) + Badge.xpReward b) ->
   User.level (user s') < calculateLevel (User.xp (user s'))).
Proof.
  intros Hf Hu s'.
  assert (Hl : lockedBadge badgeId s = Some b)
    by (apply lockedBadge_Some_iff; auto).
  unfold s', exec. rewrite (unlockBadge_locked now _ _ _ Hl).
  cbn [snd user User.level User.xp User.with_badges_xp].
  repeat split. intros -> Hlt. exact Hlt.
Qed.

(** ** updateStreak *)

(** The date that [updateStreak] takes for yesterday: the day before
    today, moved by the days that the time of day and the change of the
    offset add up to. *)
Lemma yesterdayStr_spec (now : Clock) :
  yesterdayStr now =
  today now - 1 + (instant now mod msPerDay + offsetChange now) / msPerDay.
Proof.
  unfold yesterdayStr, today, dateOf, setDate, UTC, offsetChange.
  set (t := instant now). set (l := LocalTime (zone now) t).
  set (o := offsetOfLocal (zone now) (l + -1 * msPerDay)).
  replace (l - msPerDay) with (l + -1 * msPerDay) by lia. fold o.
  unfold l, LocalTime. set (u := offsetOfUTC (zone now) t).
  assert (D : msPerDay <> 0) by (unfold msPerDay; lia).
  pose proof (Z.div_mod t msPerDay D) as E.
  replace (t + u + -1 * msPerDay - o)
    with ((t / msPerDay - 1) * msPerDay + (t mod msPerDay + (u - o))) by lia.
  rewrite Z.div_add_l by exact D. reflexivity.
Qed.

(** Away from a change of the offset it is the day before today. *)
Lemma yesterdayStr_steady (now : Clock) :
  steady now -> yesterdayStr now = today now - 1.
Proof.
  intros H. rewrite yesterdayStr_spec, H, Z.add_0_r.
  rewrite Z.div_small; [lia|].
  apply Z.mod_pos_bound. unfold msPerDay. lia.
Qed.

Lemma updateStreak_exec now s :
  exec (updateStreak now) s =
    let newStreak :=
      if User.lastActiveDate (user s) =? yesterdayStr now
      then User.streak (user s) + 1
      else if negb (User.lastActiveDate (user s) =? today now) then 1
      else User.streak (user s) in
    let s1 := mkState (User.with_streak_date (user s) newStreak (today now))
                (badges s) (missions s) (stats s) in
    if 7 <=? newStreak then exec (unlockBadge now "week_streak") s1 else s1.
Proof.
  unfold updateStreak. rewrite exec_bind. cbn [get eval exec fst snd].
  rewrite exec_bind, exec_when. reflexivity.
Qed.

(** The user after [updateStreak], past the unlock of week_streak. *)
Lemma updateStreak_user (now : Clock) (s : GameState) :
  let s' := exec (updateStreak now) s in
  User.streak (user s') =
    (if User.lastActiveDate (user s) =? yesterdayStr now
     then User.streak (user s) + 1
     else if User.lastActiveDate (user s) =? today now
          then User.streak (user s) else 1) /\
  User.lastActiveDate (user s') = today now.
Proof.
  cbv zeta. rewrite updateStreak_exec. cbv zeta.
  match goal with |- context [if 7 <=? ?n then exec ?c ?s1 else _] =>
    set (s1' := s1); set (n' := n) in *;
    pose proof (unlockBadge_frame now "week_streak" s1') as (F1 & F2 & _)
  end.
  assert (E : n' = if User.lastActiveDate (user s) =? yesterdayStr now
                   then User.streak (user s) + 1
                   else if User.lastActiveDate (user s) =? today now
                        then User.streak (user s) else 1).
  { unfold n'. destruct (_ =? yesterdayStr now); [reflexivity|].
    destruct (_ =? today now); reflexivity. }
  rewrite <- E.
  destruct (7 <=? n'); [rewrite F1, F2|]; split; reflexivity.
Qed.

(** With yesterday the day before today, the streak follows the rule of
    the specification. *)
Lemma updateStreak_user_rolled (now : Clock) (s : GameState) :
  yesterdayStr now = today now - 1 ->
  User.streak (user (exec (updateStreak now) s)) =
    rolledStreak (today now) (User.lastActiveDate (user s))
      (User.streak (user s)).
Proof.
  intros Hy. destruct (updateStreak_user now s) as [Hs _]. cbv zeta in Hs.
  rewrite Hs, Hy. reflexivity.
Qed.

Lemma with_streak_date_same (s : GameState) :
  mkState (User.with_streak_date (user s) (User.streak (user s))
             (User.lastActiveDate (user s)))
          (badges s) (missions s) (stats s) = s.
Proof. destruct s as [[] ? ? ?]. reflexivity. Qed.

(** A second [updateStreak] on the day of a first changes nothing unless
    the date it takes for yesterday is that same day. *)
Lemma updateStreak_again (first second : Clock) (s : GameState) :
  today second = today first ->
  yesterdayStr second <> today second ->
  let s1 := exec (updateStreak first) s in
  exec (updateStreak second) s1 = s1.
Proof.
  intros Hday Hy s1.
  pose proof (updateStreak_user first s) as [_ Hlast]. fold s1 in Hlast.
  rewrite updateStreak_exec. cbv zeta.
  rewrite Hlast, <- Hday.
  replace (today second =? yesterdayStr second) with false
    by (symmetry; apply Z.eqb_neq; congruence).
  rewrite Z.eqb_refl. cbn [negb].
  assert (Hsame : mkState
            (User.with_streak_date (user s1) (User.streak (user s1))
               (today second))
            (badges s1) (missions s1) (stats s1) = s1)
    by (rewrite Hday, <- Hlast; apply with_streak_date_same).
  rewrite Hsame.
  destruct (7 <=? User.streak (user s1)) eqn:E7; [|reflexivity].
  unfold exec at 1. rewrite unlockBadge_not_locked; [reflexivity|].
  unfold s1 in *. rewrite updateStreak_exec in *. cbv zeta in *.
  match goal with |- context [if 7 <=? ?n then _ else _] =>
    set (n' := n) in * end.
  destruct (7 <=? n') eqn:E.
  - apply lockedBadge_after_unlock.
  - cbn in E7. congruence.
Qed.

(** C2, where the store departs from it.  On the evening of the day the
    clocks go back in New York (2024-11-04 00:30 UTC) one local day
    earlier is 25 hours earlier, 2024-11-02 in UTC: a learner last active
    on 2024-11-03, the day before today, is not found active yesterday and
    the streak of 5 goes back to 1 where the rule gives 6.  On the evening
    of the day the clocks go forward (2024-03-10 23:30 UTC) one local day
    earlier is 23 hours earlier, still 2024-03-10: a learner last active
    today is found active yesterday and the streak of 5 becomes 6 where
    the rule leaves it. *)
Theorem updateStreak_rule_breaks_at_offset_change :
  let s := lastSeen 5 20030 newcomer in
  let s' := exec (updateStreak autumnEvening) s in
  let t := lastSeen 5 19792 newcomer in
  let t' := exec (updateStreak springEvening) t in
  (today autumnEvening = 20031 /\
   User.lastActiveDate (user s) = today autumnEvening - 1 /\
   yesterdayStr autumnEvening = today autumnEvening - 2 /\
   User.streak (user s') = 1 /\
   rolledStreak (today autumnEvening) (User.lastActiveDate (user s))
     (User.streak (user s)) = 6) /\
  (today springEvening = 19792 /\
   User.lastActiveDate (user t) = today springEvening /\
   yesterdayStr springEvening = today springEvening /\
   User.streak (user t') = 6 /\
   rolledStreak (today springEvening) (User.lastActiveDate (user t))
     (User.streak (user t)) = 5).
Proof. cbv zeta. repeat split; vm_compute; reflexivity. Qed.

(** C1, where the store departs from it.  Two visits on 2024-03-10 in New
    York, the day the clocks go forward, at 15:00 and at 23:30 UTC, by a
    learner last active the day before with a streak of 4.  The first
    raises the streak to 5.  At the second the date taken for yesterday is
    2024-03-10 itself, the learner counts as active yesterday, and the
    streak is raised again, to 6. *)
Theorem updateStreak_twice_as_clocks_go_forward :
  let s := lastSeen 4 19791 newcomer in
  let s1 := exec (updateStreak springMorning) s in
  let s2 := exec (updateStreak springEvening) s1 in
  today springMorning = 19792 /\ today springEvening = 19792 /\
  yesterdayStr springMorning = 19791 /\
  yesterdayStr springEvening = 19792 /\
  User.streak (user s1) = 5 /\ User.lastActiveDate (user s1) = 19792 /\
  User.streak (user s2) = 6 /\ User.lastActiveDate (user s2) = 19792 /\
  User.streak (user s2) <> User.streak (user s1).
Proof. cbv zeta. repeat split; vm_compute; congruence. Qed.

(** Consecutive days add one to the streak; a day missed puts it back
    to 1. *)
Example streak_over_days :
  let s1 := exec (updateStreak monday) (withStreak 4 newcomer) in
  let s2 := exec (updateStreak tuesday) s1 in
  let later := {| isoString := "2024-01-05T08:00:00.000Z";
                  instant := timeOn 19727 8 0; zone := utc |} in
  User.streak (user s1) = 4 /\ User.streak (user s2) = 5 /\
  User.lastActiveDate (user s2) = 19724 /\
  User.streak (user (exec (updateStreak later) s2)) = 1.
Proof. cbv zeta. repeat split. Qed.

(** ** addXP *)

Lemma getStreakMultiplier_run s :
  getStreakMultiplier s = (streakMultiplier (User.streak (user s)), s).
Proof.
  unfold getStreakMultiplier, streakMultiplier, bind, get, ret.
  break_ifs; reflexivity.
Qed.

Lemma streakMultiplier_quarters streak :
  streakMultiplier streak = (streakQuarters streak # 4)%Q \/
  (streakMultiplier streak == streakQuarters streak # 4)%Q.
Proof.
  unfold streakMultiplier, streakQuarters.
  break_ifs; try (left; reflexivity); right; reflexivity.
Qed.

Lemma Qfloor_quarters (b k : Z) :
  Qfloor (inject_Z b * (k # 4)) = b * k / 4.
Proof. unfold Qfloor, inject_Z, Qmult. cbn. reflexivity. Qed.

Lemma streakMultiplier_floor (b streak : Z) :
  Qfloor (inject_Z b * streakMultiplier streak) =
  b * streakQuarters streak / 4.
Proof.
  destruct (streakMultiplier_quarters streak) as [E | E].
  - rewrite E. apply Qfloor_quarters.
  - rewrite <- Qfloor_quarters. apply Qfloor_comp. rewrite E. reflexivity.
Qed.

Lemma addXP_run now type customAmount s :
  addXP now type customAmount s =
    let xpGained :=
      Qfloor (inject_Z (baseAmount type customAmount)
              * streakMultiplier (User.streak (user s))) in
    let newXP := User.xp (user s) + xpGained in
    let newLevel := calculateLevel newXP in
    let leveledUp := User.level (user s) <? newLevel in
    let s1 := mkState (User.with_xp_level (user s) newXP newLevel)
                (badges s) (missions s) (stats s) in
    ({| xpGained := xpGained; leveledUp := leveledUp;
        newLevel := if leveledUp then Some newLevel else None |},
     if 10 <=? newLevel then exec (unlockBadge now "level_10") s1 else s1).
Proof.
  unfold addXP, baseAmount. rewrite !bind_run. unfold eval, exec.
  cbn [get set_user fst snd]. rewrite !getStreakMultiplier_run.
  cbn [fst snd]. rewrite !when_run. reflexivity.
Qed.

Lemma addXP_gain now type customAmount s :
  xpGained (eval (addXP now type customAmount) s) =
  Qfloor (inject_Z (baseAmount type customAmount)
          * streakMultiplier (User.streak (user s))).
Proof. unfold eval. rewrite addXP_run. reflexivity. Qed.

(** C3. The [xpGained] that [addXP] returns is the floor of the base amount
    times the streak multiplier; the base amount is the override when there
    is one and the table entry of the activity type otherwise; the
    multiplier is 2.00 from a streak of 30, 1.75 from 14, 1.50 from 7, 1.25
    from 3 and 1.00 below, and so always one of these five. *)
Theorem addXP_xpGained (now : Clock) (type : XPEventType)
    (customAmount : option Z) (s : GameState) :
  let multiplier := eval getStreakMultiplier s in
  xpGained (eval (addXP now type customAmount) s) =
    Qfloor (inject_Z (baseAmount type customAmount) * multiplier) /\
  baseAmount type customAmount =
    match customAmount with Some a => a | None => XP_REWARDS type end /\
  multiplier = streakMultiplier (User.streak (user s)) /\
  In multiplier [1; 5 # 4; 3 # 2; 7 # 4; 2]%Q /\
  xpGained (eval (addXP now type customAmount) s) =
    baseAmount type customAmount * streakQuarters (User.streak (user s)) / 4.
Proof.
  cbv zeta. unfold eval. rewrite addXP_run, getStreakMultiplier_run.
  cbn [fst xpGained]. repeat split.
  - unfold streakMultiplier.
    break_ifs; cbn; auto 6.
  - apply streakMultiplier_floor.
Qed.

Lemma addXP_frame now type customAmount s :
  let s' := exec (addXP now type customAmount) s in
  User.streak (user s') = User.streak (user s) /\
  User.lastActiveDate (user s') = User.lastActiveDate (user s) /\
  missions s' = missions s /\
  stats s' = stats s.
Proof.
  cbv zeta. unfold exec at 1 2 3 4. rewrite addXP_run. cbv zeta. cbn [snd].
  match goal with |- context [if ?c then exec ?a ?s1 else _] =>
    pose proof (unlockBadge_frame now "level_10" s1) as (F1 & F2 & _ & F3 & F4);
    destruct c
  end.
  - rewrite F1, F2, F3, F4. cbn. auto.
  - cbn. auto.
Qed.

Lemma badgeBonus_xp now badgeId s :
  User.xp (user (exec (unlockBadge now badgeId) s)) =
  User.xp (user s) + badgeBonus badgeId s.
Proof.
  unfold exec, badgeBonus. destruct (lockedBadge badgeId s) as [b|] eqn:E.
  - rewrite (unlockBadge_locked now _ _ _ E). reflexivity.
  - rewrite (unlockBadge_not_locked now _ _ E). cbn. lia.
Qed.

(** The XP after [addXP]: the gain, and the reward of the level-10 badge
    when the new level is at least 10 and that badge is still locked. *)
Lemma addXP_xp now type customAmount s :
  let gain := xpGained (eval (addXP now type customAmount) s) in
  User.xp (user (exec (addXP now type customAmount) s)) =
    User.xp (user s) + gain
    + (if 10 <=? calculateLevel (User.xp (user s) + gain)
       then badgeBonus "level_10" s else 0).
Proof.
  cbv zeta. unfold exec, eval. rewrite addXP_run. cbv zeta. cbn [fst snd xpGained].
  destruct (10 <=? _).
  - rewrite badgeBonus_xp. reflexivity.
  - cbn. lia.
Qed.

Lemma addXP_lockedBadge now type customAmount s :
  let gain := xpGained (eval (addXP now type customAmount) s) in
  lockedBadge "level_10" (exec (addXP now type customAmount) s) =
    if 10 <=? calculateLevel (User.xp (user s) + gain)
    then None else lockedBadge "level_10" s.
Proof.
  cbv zeta. unfold exec at 1, eval. rewrite addXP_run. cbv zeta.
  cbn [fst snd xpGained].
  destruct (10 <=? _).
  - apply lockedBadge_after_unlock.
  - reflexivity.
Qed.

(** ** updateMissionProgress *)

Lemma exec_awardAll_cons now r rs s :
  exec (awardAll now (r :: rs)) s =
  exec (awardAll now rs) (exec (addXP now complete_mission (Some r)) s).
Proof. cbn [awardAll]. rewrite exec_bind. reflexivity. Qed.

(** The [map] of [updateMissionProgress] as a plan: the missions it
    returns, and the awards it makes on the way, in the order of the list. *)
Lemma mapM_missions now type amount ms s :
  let f := fun m =>
    if MissionType_eqb (Mission.type m) type
       && negb (Mission.completed m)
    then
      let newProgress :=
        Z.min (Mission.progress m + amount) (Mission.target m) in
      let completed := Mission.target m <=? newProgress in
      when (completed && negb (Mission.completed m))
           (addXP now complete_mission (Some (Mission.xpReward m))) ;;
      ret (Mission.with_progress m newProgress completed)
    else ret m in
  eval (mapM f ms) s = map (advanced type amount) ms /\
  exec (mapM f ms) s =
    exec (awardAll now
            (map Mission.xpReward (filter (completes type amount) ms))) s.
Proof.
  intros f. revert s. induction ms as [|m ms IH]; intros s; [split; reflexivity|].
  cbn [mapM map filter].
  rewrite !eval_bind, !exec_bind, eval_ret, exec_ret.
  destruct (IH (exec (f m) s)) as [-> ->].
  assert (Hf : eval (f m) s = advanced type amount m /\
               exec (f m) s =
                 if completes type amount m
                 then exec (addXP now complete_mission
                              (Some (Mission.xpReward m))) s
                 else s).
  { unfold f, advanced, completes, advances. cbv zeta.
    destruct (MissionType_eqb (Mission.type m) type);
      destruct (Mission.completed m); cbn [andb negb];
      rewrite ?eval_bind, ?exec_bind, ?eval_ret, ?exec_ret, ?exec_when;
      try (split; reflexivity).
    rewrite andb_true_r. split; reflexivity. }
  destruct Hf as [-> ->]. split; [reflexivity|].
  destruct (completes type amount m); cbn [map].
  - rewrite exec_awardAll_cons. reflexivity.
  - reflexivity.
Qed.

Lemma updateMissionProgress_exec now type amount s :
  exec (updateMissionProgress now type amount) s =
    let s' := exec (awardAll now
                      (map Mission.xpReward
                         (filter (completes type amount) (missions s)))) s in
    mkState (user s') (badges s')
            (map (advanced type amount) (missions s)) (stats s').
Proof.
  unfold updateMissionProgress. rewrite exec_bind. cbn [get eval exec fst snd].
  fold (exec (A:=unit)). rewrite exec_bind.
  destruct (mapM_missions now type amount (missions s) s) as [E1 E2].
  cbv zeta in E1, E2. rewrite E1, E2. reflexivity.
Qed.

Lemma awardAll_frame now rewards s :
  let s' := exec (awardAll now rewards) s in
  User.streak (user s') = User.streak (user s) /\
  missions s' = missions s /\
  stats s' = stats s.
Proof.
  cbv zeta. revert s. induction rewards as [|r rs IH]; intros s.
  - cbn. auto.
  - rewrite exec_awardAll_cons.
    destruct (IH (exec (addXP now complete_mission (Some r)) s))
      as (I1 & I2 & I3).
    destruct (addXP_frame now complete_mission (Some r) s)
      as (F1 & _ & F2 & F3).
    rewrite I1, I2, I3. auto.
Qed.

Lemma awardAll_lockedBadge_None now rewards s :
  lockedBadge "level_10" s = None ->
  lockedBadge "level_10" (exec (awardAll now rewards) s) = None.
Proof.
  revert s. induction rewards as [|r rs IH]; intros s H; [exact H|].
  rewrite exec_awardAll_cons. apply IH.
  rewrite addXP_lockedBadge. destruct (10 <=? _); auto.
Qed.

(** The XP after a run of completion awards: the gains of the rewards at
    the streak of the start, and the reward of the level-10 badge if the
    run unlocked it. *)
Lemma awardAll_xp now rewards s :
  let s' := exec (awardAll now rewards) s in
  User.xp (user s') =
    User.xp (user s)
    + sumZ (map (fun r => Qfloor (inject_Z r
                  * streakMultiplier (User.streak (user s)))) rewards)
    + level10Bonus s s'.
Proof.
  cbv zeta. revert s. induction rewards as [|r rs IH]; intros s.
  - cbn [awardAll map sumZ fold_right]. unfold exec, level10Bonus.
    cbn [ret snd]. destruct (lockedBadge "level_10" s); lia.
  - rewrite exec_awardAll_cons.
    set (s1 := exec (addXP now complete_mission (Some r)) s).
    rewrite (IH s1).
    destruct (addXP_frame now complete_mission (Some r) s) as (F1 & _).
    fold s1 in F1. rewrite F1.
    pose proof (addXP_xp now complete_mission (Some r) s) as X.
    pose proof (addXP_lockedBadge now complete_mission (Some r) s) as L.
    pose proof (addXP_gain now complete_mission (Some r) s) as G.
    cbv zeta in X, L. fold s1 in X, L.
    unfold baseAmount in G. rewrite G in X, L.
    cbn [map sumZ fold_right].
    rewrite X. unfold level10Bonus at 1 2. unfold badgeBonus, sumZ.
    destruct (10 <=? _).
    + rewrite L.
      rewrite (awardAll_lockedBadge_None now rs s1 L).
      destruct (lockedBadge "level_10" s); lia.
    + rewrite L. destruct (lockedBadge "level_10" s); lia.
Qed.

Lemma advanced_completing type amount m :
  Mission.type m = type ->
  Mission.completed m = false ->
  Mission.target m <= Mission.progress m + amount ->
  completes type amount m = true /\
  advanced type amount m = Mission.with_progress m (Mission.target m) true.
Proof.
  intros Ht Hc Hp. unfold completes, advanced, advances.
  rewrite Ht, Hc.
  assert (Et : MissionType_eqb type type = true) by (destruct type; reflexivity).
  rewrite Et. cbn [andb negb]. cbv zeta.
  rewrite Z.min_r by lia. rewrite Z.leb_refl. auto.
Qed.

(** The multiplier in quarters: 4 below a streak of 3, at least 5 from
    there on. *)
Lemma streakQuarters_tiers (streak : Z) :
  (streak < 3 -> streakQuarters streak = 4) /\
  (3 <= streak -> 5 <= streakQuarters streak).
Proof.
  unfold streakQuarters.
  repeat match goal with |- context [?a <=? ?b] =>
    destruct (Z.leb_spec a b) end; split; intros; lia.
Qed.

(** C4, as the store has it. A call of [updateMissionProgress] that brings
    a mission of the category to its target marks it completed, with the
    progress at the target, and awards it through
    [addXP('complete_mission', m.xpReward)]: the XP gained for the
    completion is the floor of [xpReward] times the streak multiplier,
    which is [xpReward] itself below a streak of 3 and, for a reward of 4
    XP or more, only there: from a streak of 3 on it is larger.  The
    cumulative
    XP grows by the gains of the missions completed by the call, and by
    the reward of the level-10 badge when the call unlocks it. *)
Theorem updateMissionProgress_completion (now : Clock) (type : MissionType)
    (amount : Z) (s : GameState) (i : nat) (m : Mission.t) :
  nth_error (missions s) i = Some m ->
  Mission.type m = type ->
  Mission.completed m = false ->
  Mission.target m <= Mission.progress m + amount ->
  let s' := exec (updateMissionProgress now type amount) s in
  let awarded := filter (completes type amount) (missions s) in
  nth_error (missions s') i =
    Some (Mission.with_progress m (Mission.target m) true) /\
  In m awarded /\
  (forall s0 : GameState,
     User.streak (user s0) = User.streak (user s) ->
     xpGained (eval (addXP now complete_mission
                       (Some (Mission.xpReward m))) s0) =
     missionGain s m) /\
  missionGain s m =
    Mission.xpReward m * streakQuarters (User.streak (user s)) / 4 /\
  (User.streak (user s) < 3 -> missionGain s m = Mission.xpReward m) /\
  (3 <= User.streak (user s) -> 4 <= Mission.xpReward m ->
   Mission.xpReward m < missionGain s m) /\
  User.xp (user s') =
    User.xp (user s) + sumZ (map (missionGain s) awarded)
    + level10Bonus s s'.
Proof.
  intros Hn Ht Hc Hp s' awarded.
  destruct (advanced_completing type amount m Ht Hc Hp) as [Hcomp Hadv].
  unfold s'. rewrite updateMissionProgress_exec. cbv zeta.
  cbn [missions user].
  repeat split.
  - rewrite nth_error_map, Hn. cbn. rewrite Hadv. reflexivity.
  - apply filter_In. split; [|exact Hcomp].
    eapply nth_error_In; eauto.
  - intros s0 Hs0. rewrite addXP_gain, Hs0. reflexivity.
  - apply streakMultiplier_floor.
  - intros Hlt. unfold missionGain. rewrite streakMultiplier_floor.
    unfold streakQuarters.
    repeat match goal with |- context [?a <=? ?b] =>
      destruct (Z.leb_spec a b); try lia end.
    apply Z.div_mul. lia.
  - intros H3 H4. unfold missionGain. rewrite streakMultiplier_floor.
    pose proof (streakQuarters_tiers (User.streak (user s))) as [_ Hq].
    specialize (Hq H3).
    assert (Mission.xpReward m + 1
            <= Mission.xpReward m * streakQuarters (User.streak (user s)) / 4)
      by (apply Z.div_le_lower_bound; nia).
    lia.
  - rewrite awardAll_xp. cbv zeta. rewrite map_map. reflexivity.
Qed.

(** ** Sequences of updateMissionProgress calls *)







Lemma advanced_static type amount m :
  Mission.id (advanced type amount m) = Mission.id m /\
  Mission.type (advanced type amount m) = Mission.type m /\
  Mission.target (advanced type amount m) = Mission.target m /\
  Mission.xpReward (advanced type amount m) = Mission.xpReward m.
Proof. unfold advanced. destruct (advances type m); cbn; auto. Qed.


(** The missions of a new day satisfy the invariant. *)
Lemma resetDailyMissions_wellFormed (s : GameState) :
  Forall wellFormed (missions (exec resetDailyMissions s)).
Proof.
  cbn. repeat constructor; cbn; lia.
Qed.


(** ** The XP over a sequence of calls *)













(** ** incrementStat *)

Lemma Stats_get_set st k v : Stats.get (Stats.set st k v) k = v.
Proof. destruct k; reflexivity. Qed.

Lemma Stats_get_set_other st k k' v :
  k' <> k -> Stats.get (Stats.set st k v) k' = Stats.get st k'.
Proof. intros H. destruct k, k'; try reflexivity; congruence. Qed.

(** The seven conditionals of [incrementStat] against the table. *)
Lemma incrementStat_exec now stat s :
  exec (incrementStat now stat) s =
    let value := Stats.get (stats s) stat + 1 in
    let s1 := mkState (user s) (badges s) (missions s)
                (Stats.set (stats s) stat value) in
    if satisfied (thresholdRule stat) value
    then exec (unlockBadge now (ruleBadge (thresholdRule stat))) s1
    else s1.
Proof.
  unfold incrementStat. rewrite !exec_bind.
  cbn [get set_stats eval exec fst snd].
  destruct stat; cbn [Key.eqb andb when Stats.get Stats.set];
    rewrite ?exec_bind, ?exec_ret, ?exec_when;
    cbn [Stats.quizzesCompleted Stats.flashcardsReviewed Stats.doubtsAsked
         Stats.stepsSubmitted Stats.correctSteps Stats.studyPlansCreated
         Stats.imagesUploaded];
    unfold satisfied; cbn [thresholdRule ruleBadge ruleThreshold ruleComparator];
    reflexivity.
Qed.

Lemma lockedBadge_unlock_other now badgeId other s :
  lockedBadge other s = None ->
  lockedBadge other (exec (unlockBadge now badgeId) s) = None.
Proof.
  intros H. destruct (String.eqb_spec other badgeId) as [-> | Hne].
  - apply lockedBadge_after_unlock.
  - unfold exec. destruct (lockedBadge badgeId s) as [b|] eqn:E.
    + rewrite (unlockBadge_locked now _ _ _ E). unfold lockedBadge in *.
      cbn [snd badges].
      rewrite (findBadge_markUnlocked_other _ _ _ _ Hne). exact H.
    + rewrite (unlockBadge_not_locked now _ _ E). exact H.
Qed.

(** C8. [incrementStat] adds exactly one to the named counter and leaves
    the other counters; it then calls [unlockBadge] for the badge of the
    counter exactly when the rule of the table holds of the new value
    (first_step, correct_step and study_planner at a value equal to 1,
    quiz_master from 5, flashcard_fan from 50, doubt_solver from 10,
    ocr_explorer from 5), which unlocks the badge and adds its reward when
    it is still locked; a badge that is not locked any more stays so, and
    an increment whose badge is not locked leaves user and badges alone. *)
Theorem incrementStat_rule (now : Clock) (stat : Key.t) (s : GameState) :
  let rule := thresholdRule stat in
  let value := Stats.get (stats s) stat + 1 in
  let s1 := mkState (user s) (badges s) (missions s)
              (Stats.set (stats s) stat value) in
  let s' := exec (incrementStat now stat) s in
  s' = (if satisfied rule value
        then exec (unlockBadge now (ruleBadge rule)) s1 else s1) /\
  Stats.get (stats s') stat = Stats.get (stats s) stat + 1 /\
  (forall other, other <> stat ->
     Stats.get (stats s') other = Stats.get (stats s) other) /\
  badges s' =
    (if satisfied rule value
     then match lockedBadge (ruleBadge rule) s with
          | Some _ => markUnlocked (isoString now) (ruleBadge rule) (badges s)
          | None => badges s
          end
     else badges s) /\
  User.xp (user s') =
    User.xp (user s)
    + (if satisfied rule value then badgeBonus (ruleBadge rule) s else 0) /\
  (satisfied rule value = true -> lockedBadge (ruleBadge rule) s' = None) /\
  (forall badgeId,
     lockedBadge badgeId s = None -> lockedBadge badgeId s' = None) /\
  (lockedBadge (ruleBadge rule) s = None ->
   user s' = user s /\ badges s' = badges s).
Proof.
  intros rule value s1 s'.
  assert (E : s' = if satisfied rule value
                   then exec (unlockBadge now (ruleBadge rule)) s1 else s1)
    by apply incrementStat_exec.
  assert (L : lockedBadge (ruleBadge rule) s1 = lockedBadge (ruleBadge rule) s)
    by reflexivity.
  split; [exact E|]. rewrite E. clear E s'.
  pose proof (unlockBadge_frame now (ruleBadge rule) s1) as (_ & _ & _ & _ & Fs).
  pose proof (badgeBonus_xp now (ruleBadge rule) s1) as X.
  destruct (satisfied rule value).
  - rewrite Fs, X. cbn [stats s1 user].
    split; [apply Stats_get_set|].
    split; [intros other Hne; apply Stats_get_set_other, Hne|].
    split.
    { unfold exec. destruct (lockedBadge (ruleBadge rule) s) as [b|] eqn:El.
      - rewrite (unlockBadge_locked now _ _ _ L). reflexivity.
      - rewrite (unlockBadge_not_locked now _ _ L). reflexivity. }
    split; [reflexivity|].
    split; [intros _; apply lockedBadge_after_unlock|].
    split; [intros badgeId H; apply lockedBadge_unlock_other, H|].
    intros H. unfold exec.
    rewrite (unlockBadge_not_locked now _ _ (eq_trans L H)). auto.
  - cbn [stats s1 user badges].
    split; [apply Stats_get_set|].
    split; [intros other Hne; apply Stats_get_set_other, Hne|].
    split; [reflexivity|]. split; [lia|].
    split; [discriminate|]. split; [intros badgeId H; exact H|]. auto.
Qed.

(** The scenario of the specification: five quizzes unlock quiz_master,
    the sixth does not award it again. *)
Example quiz_master_scenario :
  let after n := exec (incrementTimes monday Key.quizzesCompleted n) newcomer in
  badgeBonus "quiz_master" (after 4%nat) = 100 /\
  User.xp (user (after 4%nat)) = 0 /\
  User.xp (user (after 5%nat)) = 100 /\
  User.badges (user (after 5%nat)) = ["quiz_master"] /\
  User.xp (user (after 6%nat)) = 100 /\
  User.badges (user (after 6%nat)) = ["quiz_master"] /\
  badges (after 6%nat) = badges (after 5%nat).
Proof. cbv zeta. repeat split. Qed.

(** An "equals" rule fires at the value 1 only: with the badge still
    locked, a step counter that goes from 1 to 2 unlocks nothing, while a
    quiz counter that goes from 5 to 6 does unlock its badge. *)
Example equals_and_at_least :
  let late k v :=
    mkState (user newcomer) BADGES DAILY_MISSIONS
            (Stats.set (stats newcomer) k v) in
  badges (exec (incrementStat monday Key.stepsSubmitted)
            (late Key.stepsSubmitted 1)) = BADGES /\
  lockedBadge "quiz_master"
    (exec (incrementStat monday Key.quizzesCompleted)
       (late Key.quizzesCompleted 5)) = None.
Proof. cbv zeta. split; reflexivity. Qed.

(** ** Scenarios of the specification *)

Example complete_quiz_from_scratch :
  eval (addXP monday complete_quiz None) newcomer =
    {| xpGained := 50; leveledUp := false; newLevel := None |} /\
  User.xp (user (exec (addXP monday complete_quiz None) newcomer)) = 50 /\
  User.level (user (exec (addXP monday complete_quiz None) newcomer)) = 1.
Proof. repeat split. Qed.

Example correct_step_on_week_streak :
  eval getStreakMultiplier (withStreak 7 newcomer) = (3 # 2)%Q /\
  xpGained (eval (addXP monday correct_step (Some 10))
              (withStreak 7 newcomer)) = 15.
Proof. split; reflexivity. Qed.

Example reset_after_progress :
  let s := exec (updateMissionProgress monday study 1) newcomer in
  map Mission.completed (missions s) = [false; false; false; true] /\
  missions (exec resetDailyMissions s) = DAILY_MISSIONS.
Proof. cbv zeta. split; reflexivity. Qed.

Example level_ten_unlocks_badge :
  let s := exec (addXP monday complete_quiz (Some 8100)) newcomer in
  User.level (user s) = 10 /\ User.xp (user s) = 8100 + 250 /\
  lockedBadge "level_10" s = None.
Proof. cbv zeta. repeat split. Qed.

(** ** Instances of the theorems, and where the store departs from the
    specification *)

(** A second unlock of quiz_master on a new account: nothing happens and
    the XP stays at the 100 of the first. *)
Lemma unlockBadge_noop_witness :
  let s1 := exec (unlockBadge monday "quiz_master") newcomer in
  unlockBadge mondayEvening "quiz_master" s1 = (None, s1) /\
  User.xp (user (exec (unlockBadge mondayEvening "quiz_master") s1)) = 100.
Proof.
  intros s1.
  destruct (unlockBadge_noop mondayEvening "quiz_master" s1) as [E X].
  - right. right. exists monday, newcomer. reflexivity.
  - split; [exact E | rewrite X; reflexivity].
Defined.

(** Unlocking quiz_master on a 30-day streak adds its 100 XP, not 200. *)
Lemma unlockBadge_unlocks_witness :
  eval (unlockBadge monday "quiz_master") (withStreak 30 newcomer) =
    Some (Badge.as_unlocked
            (mkBadge "quiz_master" "Quiz Master" "Complete 5 quizzes"
               "📝" "Complete 5 quizzes" 100)) /\
  User.xp (user (exec (unlockBadge monday "quiz_master")
                   (withStreak 30 newcomer))) = 0 + 100.
Proof.
  pose proof (unlockBadge_unlocks monday "quiz_master"
                (withStreak 30 newcomer) _ eq_refl eq_refl) as H.
  cbv zeta in H.
  split; [apply H | apply (proj1 (proj2 (proj2 (proj2 (proj2 (proj2 (proj2 H)))))))].
Defined.

(** After quiz_master on a new account the stored level is still 1 while
    100 XP is level 2. *)
Lemma unlockBadge_keeps_level_witness :
  let s' := exec (unlockBadge monday "quiz_master") newcomer in
  User.level (user s') = 1 /\ User.xp (user s') = 100 /\
  User.level (user s') < calculateLevel (User.xp (user s')).
Proof.
  destruct (unlockBadge_keeps_level monday "quiz_master" newcomer _
              eq_refl eq_refl) as (L & X & Stale).
  cbv zeta. split; [exact L|]. split; [exact X|].
  apply Stale; reflexivity.
Defined.

(** 399 XP is level 2 and 400 XP is level 3. *)
Lemma calculateLevel_monotone_witness :
  calculateLevel 399 <= calculateLevel 400 /\
  calculateLevel 399 = 2 /\ calculateLevel 400 = 3.
Proof.
  destruct (calculateLevel_monotone 399 400 ltac:(lia) ltac:(lia)) as (H & _).
  split; [exact H|]. split; reflexivity.
Defined.

(** The quiz mission one step from its target, on a streak of three
    days: completing it adds 93 XP, not its [xpReward] of 75. *)
Lemma mission_award_scaled_by_streak :
  let s := withStreak 3 (exec (updateMissionProgress monday quiz 1) newcomer) in
  let m := Mission.mk "mission_quiz" "Quiz Champion"
             "Complete 2 quizzes today" quiz 2 1 75 false in
  let s' := exec (updateMissionProgress mondayEvening quiz 1) s in
  nth_error (missions s) 0 = Some m /\
  Mission.target m <= Mission.progress m + 1 /\
  nth_error (missions s') 0 = Some (Mission.with_progress m 2 true) /\
  User.xp (user s) = 0 /\
  User.xp (user s') = 93 /\
  User.xp (user s') - User.xp (user s) <> Mission.xpReward m.
Proof. cbv zeta. repeat split; vm_compute; congruence. Qed.

(** The same call, by the theorem: the gain is [75 * 5 / 4], more than
    the 75 of the reward. *)
Lemma updateMissionProgress_completion_witness :
  let s := withStreak 3 (exec (updateMissionProgress monday quiz 1) newcomer) in
  let m := Mission.mk "mission_quiz" "Quiz Champion"
             "Complete 2 quizzes today" quiz 2 1 75 false in
  let s' := exec (updateMissionProgress mondayEvening quiz 1) s in
  nth_error (missions s') 0 = Some (Mission.with_progress m 2 true) /\
  missionGain s m = 75 * 5 / 4 /\
  Mission.xpReward m < missionGain s m /\
  User.xp (user s') = 0 + sumZ [missionGain s m] + 0.
Proof.
  cbv zeta.
  destruct (updateMissionProgress_completion mondayEvening quiz 1
              (withStreak 3 (exec (updateMissionProgress monday quiz 1) newcomer))
              0 _ eq_refl eq_refl eq_refl ltac:(cbn; lia))
    as (Hm & _ & _ & Hg & _ & Hmore & Hx).
  split; [exact Hm|]. split; [exact Hg|].
  split; [apply Hmore; cbn; lia | exact Hx].
Defined.



(** ** Runs of store actions: what every action preserves *)

Lemma lockedBadge_same_badges badgeId s s' :
  badges s' = badges s -> lockedBadge badgeId s' = lockedBadge badgeId s.
Proof. unfold lockedBadge. intros ->. reflexivity. Qed.

Lemma exec_addXP now type customAmount s :
  exec (addXP now type customAmount) s =
    let gain := Qfloor (inject_Z (baseAmount type customAmount)
                        * streakMultiplier (User.streak (user s))) in
    let newXP := User.xp (user s) + gain in
    let s1 := mkState (User.with_xp_level (user s) newXP (calculateLevel newXP))
                (badges s) (missions s) (stats s) in
    if 10 <=? calculateLevel newXP
    then exec (unlockBadge now "level_10") s1 else s1.
Proof. unfold exec at 1. rewrite addXP_run. reflexivity. Qed.

Lemma exec_setUser updates s :
  exec (setUser updates) s =
    mkState
      (User.mk (User.id (user s))
         (match newName updates with
          | Some n => n | None => User.name (user s) end)
         (match newAvatar updates with
          | Some a => a | None => User.avatar (user s) end)
         (User.xp (user s)) (User.level (user s)) (User.streak (user s))
         (User.lastActiveDate (user s)) (User.badges (user s))
         (User.createdAt (user s)))
      (badges s) (missions s) (stats s).
Proof. reflexivity. Qed.

Lemma streakQuarters_bounds streak : 4 <= streakQuarters streak <= 8.
Proof. unfold streakQuarters. break_ifs; lia. Qed.

Lemma gain_nonneg (base streak : Z) :
  0 <= base ->
  0 <= Qfloor (inject_Z base * streakMultiplier streak).
Proof.
  intros H. rewrite streakMultiplier_floor.
  pose proof (streakQuarters_bounds streak).
  apply Z.div_pos; nia.
Qed.

Section Preservation.
  (** A property [P] of the game state, and the base amounts [B] under
      which it is kept: if the primitive updates keep [P], every action of
      the store other than [logout] does. *)
Variable P : GameState -> Prop.
Variable B : Z -> Prop.

Hypothesis P_unlock : forall now badgeId s,
    P s -> P (exec (unlockBadge now badgeId) s).
Hypothesis P_xp : forall s base,
    P s -> B base ->
    let newXP := User.xp (user s)
                 + Qfloor (inject_Z base
                           * streakMultiplier (User.streak (user s))) in
    P (mkState (User.with_xp_level (user s) newXP (calculateLevel newXP))
         (badges s) (missions s) (stats s)).
Hypothesis P_streak : forall s st d,
    P s ->
    P (mkState (User.with_streak_date (user s) st d)
         (badges s) (missions s) (stats s)).
Hypothesis P_missions : forall s type amount,
    P s ->
    P (mkState (user s) (badges s)
         (map (advanced type amount) (missions s)) (stats s)).
Hypothesis P_reset : forall s,
    P s -> P (mkState (user s) (badges s) DAILY_MISSIONS (stats s)).
Hypothesis P_stats : forall s stat,
    P s ->
    P (mkState (user s) (badges s) (missions s)
         (Stats.set (stats s) stat (Stats.get (stats s) stat + 1))).
Hypothesis P_setUser : forall s updates,
    P s -> P (exec (setUser updates) s).
Hypothesis B_table : forall type, B (XP_REWARDS type).
Hypothesis B_missions : forall s m,
    P s -> In m (missions s) -> B (Mission.xpReward m).

Lemma keeps_addXP now type customAmount s :
    P s -> B (baseAmount type customAmount) ->
    P (exec (addXP now type customAmount) s).
  Proof.
    intros HP HB. rewrite exec_addXP. cbv zeta.
    pose proof (P_xp s _ HP HB) as H1. cbv zeta in H1.
    destruct (10 <=? _); [apply P_unlock|]; exact H1.
  Qed.

Lemma keeps_awardAll now rewards s :
    P s -> Forall B rewards -> P (exec (awardAll now rewards) s).
  Proof.
    revert s. induction rewards as [|r rs IH]; intros s HP HB.
    - exact HP.
    - rewrite exec_awardAll_cons. inversion HB; subst.
      apply IH; [|assumption]. apply keeps_addXP; assumption.
  Qed.

Lemma keeps_updateStreak now s : P s -> P (exec (updateStreak now) s).
  Proof.
    intros HP. rewrite updateStreak_exec. cbv zeta.
    match goal with |- context [mkState (User.with_streak_date _ ?n ?d)] =>
      pose proof (P_streak s n d HP) as H1 end.
    destruct (7 <=? _); [apply P_unlock|]; exact H1.
  Qed.

Lemma keeps_updateMissionProgress now type amount s :
    P s -> P (exec (updateMissionProgress now type amount) s).
  Proof.
    intros HP. rewrite updateMissionProgress_exec. cbv zeta.
    set (rewards := map Mission.xpReward
                      (filter (completes type amount) (missions s))).
    assert (HB : Forall B rewards).
    { unfold rewards. apply Forall_forall. intros r Hr.
      apply in_map_iff in Hr as (m & <- & Hm).
      apply filter_In in Hm as [Hm _]. eapply B_missions; eauto. }
    pose proof (keeps_awardAll now rewards s HP HB) as H1.
    destruct (awardAll_frame now rewards s) as (_ & Hms & _).
    rewrite <- Hms. apply P_missions, H1.
  Qed.

Lemma keeps_incrementStat now stat s :
    P s -> P (exec (incrementStat now stat) s).
  Proof.
    intros HP. rewrite incrementStat_exec. cbv zeta.
    pose proof (P_stats s stat HP) as H1.
    destruct (satisfied _ _); [apply P_unlock|]; exact H1.
  Qed.

Lemma keeps_perform (st : Step) (w : World) :
    isLogout st = false -> admissible B st ->
    P (game w) -> P (game (perform st w)).
  Proof.
    unfold perform, isLogout, admissible.
    destruct (action st) as [type c| |badgeId|type amount| |stat|updates|];
      intros Hl Ha HP; cbn [onGame game].
    - apply keeps_addXP; [exact HP|].
      destruct c; [exact Ha | apply B_table].
    - apply keeps_updateStreak, HP.
    - apply P_unlock, HP.
    - apply keeps_updateMissionProgress, HP.
    - apply (P_reset _ HP).
    - apply keeps_incrementStat, HP.
    - apply P_setUser, HP.
    - discriminate.
  Qed.
End Preservation.

(** *** Rewards and the level *)

Lemma Forall_markUnlocked stamp badgeId bs :
  Forall (fun b => 0 <= Badge.xpReward b) bs ->
  Forall (fun b => 0 <= Badge.xpReward b) (markUnlocked stamp badgeId bs).
Proof.
  unfold markUnlocked. induction 1 as [|b bs Hb _ IH]; cbn; constructor; auto.
  destruct (Badge.id b =? badgeId)%string; exact Hb.
Qed.

Lemma lockedBadge_In badgeId s b :
  lockedBadge badgeId s = Some b ->
  In b (badges s) /\ Badge.id b = badgeId /\ Badge.unlocked b = false.
Proof.
  intros H. apply lockedBadge_Some_iff in H as [Hf Hu].
  unfold findBadge in Hf. apply find_some in Hf as [Hin Hid].
  apply String.eqb_eq in Hid. auto.
Qed.

Lemma badgeBonus_nonneg badgeId s :
  rewardsNonneg s -> 0 <= badgeBonus badgeId s.
Proof.
  intros [Hb _]. unfold badgeBonus.
  destruct (lockedBadge badgeId s) as [b|] eqn:E; [|lia].
  apply lockedBadge_In in E as [Hin _].
  rewrite Forall_forall in Hb. apply Hb, Hin.
Qed.

Lemma rewardsNonneg_unlock now badgeId s :
  rewardsNonneg s -> rewardsNonneg (exec (unlockBadge now badgeId) s).
Proof.
  intros [Hb Hm]. unfold exec.
  destruct (lockedBadge badgeId s) as [b|] eqn:E.
  - rewrite (unlockBadge_locked now _ _ _ E). split; cbn [snd badges missions].
    + apply Forall_markUnlocked, Hb.
    + exact Hm.
  - rewrite (unlockBadge_not_locked now _ _ E). split; assumption.
Qed.

Lemma advanced_rewards type amount ms :
  Forall (fun m => 0 <= Mission.xpReward m) ms ->
  Forall (fun m => 0 <= Mission.xpReward m) (map (advanced type amount) ms).
Proof.
  induction 1 as [|m ms Hm _ IH]; cbn; constructor; auto.
  destruct (advanced_static type amount m) as (_ & _ & _ & ->). exact Hm.
Qed.

Lemma DAILY_MISSIONS_rewards :
  Forall (fun m => 0 <= Mission.xpReward m) DAILY_MISSIONS.
Proof. repeat constructor; cbn; lia. Qed.

Lemma XP_REWARDS_nonneg type : 0 <= XP_REWARDS type.
Proof. destruct type; cbn; lia. Qed.

Lemma levelWithinXP_unlock now badgeId s :
  rewardsNonneg s -> levelWithinXP s ->
  levelWithinXP (exec (unlockBadge now badgeId) s).
Proof.
  intros Hr (Hx & Hl & Hc).
  pose proof (badgeBonus_xp now badgeId s) as X.
  pose proof (badgeBonus_nonneg badgeId s Hr) as Hn.
  destruct (unlockBadge_frame now badgeId s) as (_ & _ & L & _).
  unfold levelWithinXP. rewrite L, X.
  split; [lia|]. split; [exact Hl|].
  eapply Z.le_trans; [exact Hc|]. apply calculateLevel_le. lia.
Qed.

(** Every step other than [logout] keeps the rewards non-negative and,
    with non-negative amounts, the level within the XP. *)
Lemma level_keeps_perform (st : Step) (w : World) :
  isLogout st = false -> nonnegAmount st ->
  rewardsNonneg (game w) /\ levelWithinXP (game w) ->
  rewardsNonneg (game (perform st w)) /\ levelWithinXP (game (perform st w)).
Proof.
  intros Hl Ha.
  apply (keeps_perform (fun s => rewardsNonneg s /\ levelWithinXP s)
           (fun a => 0 <= a)); try assumption.
  - intros now badgeId s [Hr Hv].
    split; [apply rewardsNonneg_unlock | apply levelWithinXP_unlock]; assumption.
  - intros s base [Hr (Hx & _)] Hb newXP. split; [exact Hr|].
    pose proof (gain_nonneg base (User.streak (user s)) Hb).
    unfold levelWithinXP. cbn [user User.xp User.level User.with_xp_level].
    pose proof (calculateLevel_positive newXP).
    unfold newXP in *. split; [lia|]. split; lia.
  - intros s st0 d HP. exact HP.
  - intros s type amount [[Hb Hm] Hv]. split; [|exact Hv].
    split; [exact Hb | apply advanced_rewards, Hm].
  - intros s [[Hb Hm] Hv]. split; [|exact Hv].
    split; [exact Hb | apply DAILY_MISSIONS_rewards].
  - intros s st0 HP. exact HP.
  - intros s updates HP. exact HP.
  - apply XP_REWARDS_nonneg.
  - intros s m [[_ Hm] _] Hin. rewrite Forall_forall in Hm. apply Hm, Hin.
Qed.

Lemma level_keeps_logout now w :
  rewardsNonneg (game w) ->
  rewardsNonneg (game (logout now w)) /\ levelWithinXP (game (logout now w)).
Proof.
  intros Hr. split; [exact Hr|].
  unfold levelWithinXP. cbn. repeat split; try lia; discriminate.
Qed.

Lemma level_keeps_performAll (steps : list Step) :
  forall w,
    Forall nonnegAmount steps ->
    rewardsNonneg (game w) /\ levelWithinXP (game w) ->
    rewardsNonneg (game (performAll steps w)) /\
    levelWithinXP (game (performAll steps w)).
Proof.
  induction steps as [|st steps IH]; intros w Ha HP; [exact HP|].
  inversion Ha as [|? ? Hst Hrest]; subst. cbn [performAll fold_left].
  apply IH; [exact Hrest|].
  destruct (isLogout st) eqn:El.
  - unfold perform. unfold isLogout in El.
    destruct (action st); try discriminate.
    apply level_keeps_logout, HP.
  - apply level_keeps_perform; assumption.
Qed.

(** X1. Along every run of store actions, [logout] included, with
    non-negative rewards and amounts: the XP is never negative, and the
    stored level is at least 1 and never above [calculateLevel] of the
    stored XP. *)
Theorem level_never_ahead_of_xp (steps : list Step) (w : World) :
  rewardsNonneg (game w) ->
  levelWithinXP (game w) ->
  Forall nonnegAmount steps ->
  let s' := game (performAll steps w) in
  0 <= User.xp (user s') /\
  1 <= User.level (user s') /\
  User.level (user s') <= calculateLevel (User.xp (user s')).
Proof.
  intros Hr Hv Ha.
  exact (proj2 (level_keeps_performAll steps w Ha (conj Hr Hv))).
Qed.

(** *** The badges of the user *)

Lemma ownedUnlocked_unlock now badgeId s :
  ownedUnlocked s -> ownedUnlocked (exec (unlockBadge now badgeId) s).
Proof.
  intros [Hnd Hin].
  destruct (lockedBadge badgeId s) as [b|] eqn:E.
  - assert (Hs : exec (unlockBadge now badgeId) s =
                 mkState
                   (User.with_badges_xp (user s)
                      (User.badges (user s) ++ [badgeId])%list
                      (User.xp (user s) + Badge.xpReward b))
                   (markUnlocked (isoString now) badgeId (badges s))
                   (missions s) (stats s))
      by (unfold exec; rewrite (unlockBadge_locked now _ _ _ E); reflexivity).
    rewrite Hs. clear Hs.
    apply lockedBadge_Some_iff in E as [Ef Eu].
    assert (Hnew : forall x, In x (User.badges (user s)) -> x <> badgeId).
    { intros x Hx ->. destruct (Hin _ Hx) as (b' & Hf & Hu). congruence. }
    split; cbn [user badges User.badges User.with_badges_xp].
    + apply NoDup_app; repeat split.
      * exact Hnd.
      * constructor; [intros []|constructor].
      * intros x Hx [<- | []]. exact (Hnew _ Hx eq_refl).
    + intros x Hx. apply in_app_or in Hx as [Hx | [<- | []]].
      * rewrite (findBadge_markUnlocked_other _ _ _ _ (Hnew _ Hx)).
        apply Hin, Hx.
      * rewrite findBadge_markUnlocked, Ef. cbn. eauto.
  - unfold exec. rewrite (unlockBadge_not_locked now _ _ E). split; assumption.
Qed.

Lemma owned_keeps_perform (st : Step) (w : World) :
  ownedUnlocked (game w) -> ownedUnlocked (game (perform st w)).
Proof.
  intros HP. destruct (isLogout st) eqn:El.
  - unfold perform. unfold isLogout in El.
    destruct (action st); try discriminate.
    split; cbn; [constructor | intros ? []].
  - apply (keeps_perform ownedUnlocked (fun _ => True));
      try assumption; try exact I; try (intros; exact I);
      try (intros; assumption).
    + intros now badgeId s H. apply ownedUnlocked_unlock, H.
    + unfold admissible. destruct (action st) as [? [?|]| | | | | | |]; exact I.
Qed.

(** X2. The list of badge identifiers of the user never holds an
    identifier twice, and every identifier in it names a badge of the
    store that is unlocked: every action keeps this, [logout] included, so
    it holds after every run of actions. *)
Theorem user_badges_distinct_and_unlocked (steps : list Step) (w : World) :
  ownedUnlocked (game w) ->
  let s' := game (performAll steps w) in
  NoDup (User.badges (user s')) /\
  (forall badgeId, In badgeId (User.badges (user s')) ->
     exists b, findBadge badgeId (badges s') = Some b /\
               Badge.unlocked b = true).
Proof.
  revert w. induction steps as [|st steps IH]; intros w HP.
  - exact HP.
  - cbn [performAll fold_left]. apply IH, owned_keeps_perform, HP.
Qed.

(** *** What grows and what stays *)

Lemma xp_keeps_perform (xp0 : Z) (st : Step) (w : World) :
  isLogout st = false -> nonnegAmount st ->
  rewardsNonneg (game w) /\ xp0 <= User.xp (user (game w)) ->
  rewardsNonneg (game (perform st w)) /\
  xp0 <= User.xp (user (game (perform st w))).
Proof.
  intros Hl Ha.
  apply (keeps_perform (fun s => rewardsNonneg s /\ xp0 <= User.xp (user s))
           (fun a => 0 <= a)); try assumption.
  - intros now badgeId s [Hr Hx].
    split; [apply rewardsNonneg_unlock, Hr|].
    rewrite badgeBonus_xp. pose proof (badgeBonus_nonneg badgeId s Hr). lia.
  - intros s base [Hr Hx] Hb newXP. split; [exact Hr|].
    pose proof (gain_nonneg base (User.streak (user s)) Hb).
    cbn [user User.xp User.with_xp_level]. unfold newXP. lia.
  - intros s st0 d HP. exact HP.
  - intros s type amount [[Hb Hm] Hv]. split; [|exact Hv].
    split; [exact Hb | apply advanced_rewards, Hm].
  - intros s [[Hb Hm] Hv]. split; [|exact Hv].
    split; [exact Hb | apply DAILY_MISSIONS_rewards].
  - intros s stat HP. exact HP.
  - intros s updates HP. exact HP.
  - apply XP_REWARDS_nonneg.
  - intros s m [[_ Hm] _] Hin. rewrite Forall_forall in Hm. apply Hm, Hin.
Qed.

Lemma xp_keeps_performAll (xp0 : Z) (steps : list Step) :
  forall w,
    Forall nonnegAmount steps ->
    Forall (fun st => isLogout st = false) steps ->
    rewardsNonneg (game w) /\ xp0 <= User.xp (user (game w)) ->
    rewardsNonneg (game (performAll steps w)) /\
    xp0 <= User.xp (user (game (performAll steps w))).
Proof.
  induction steps as [|st steps IH]; intros w Ha Hl HP; [exact HP|].
  inversion Ha; inversion Hl; subst. cbn [performAll fold_left].
  apply IH; [assumption | assumption |].
  apply xp_keeps_perform; assumption.
Qed.

(** X3. With non-negative rewards and amounts no action of the store
    other than [logout] lowers the cumulative XP: along a run without
    [logout] the XP only grows. *)
Theorem xp_never_decreases (steps : list Step) (w : World) :
  rewardsNonneg (game w) ->
  Forall nonnegAmount steps ->
  Forall (fun st => isLogout st = false) steps ->
  User.xp (user (game w)) <= User.xp (user (game (performAll steps w))).
Proof.
  intros Hr Ha Hl.
  apply (xp_keeps_performAll (User.xp (user (game w))) steps w Ha Hl).
  split; [exact Hr | lia].
Qed.

Lemma keepsBadge_refl b : keepsBadge b b.
Proof. repeat split; auto. Qed.

Lemma keepsBadge_trans a b c :
  keepsBadge a b -> keepsBadge b c -> keepsBadge a c.
Proof.
  intros (I1 & R1 & U1) (I2 & R2 & U2). repeat split; try congruence; auto.
Qed.

Lemma Forall2_keepsBadge_refl bs : Forall2 keepsBadge bs bs.
Proof. induction bs; constructor; auto using keepsBadge_refl. Qed.

Lemma Forall2_keepsBadge_trans xs ys zs :
  Forall2 keepsBadge xs ys -> Forall2 keepsBadge ys zs ->
  Forall2 keepsBadge xs zs.
Proof.
  intros H. revert zs. induction H; intros zs H2; inversion H2; subst;
    constructor; eauto using keepsBadge_trans.
Qed.

Lemma Forall2_keepsBadge_markUnlocked stamp badgeId bs :
  Forall2 keepsBadge bs (markUnlocked stamp badgeId bs).
Proof.
  unfold markUnlocked. induction bs as [|b bs IH]; cbn; constructor; auto.
  destruct (Badge.id b =? badgeId)%string; repeat split; auto.
Qed.

Lemma keepsBadge_unlock now badgeId s :
  Forall2 keepsBadge (badges s) (badges (exec (unlockBadge now badgeId) s)).
Proof.
  unfold exec. destruct (lockedBadge badgeId s) as [b|] eqn:E.
  - rewrite (unlockBadge_locked now _ _ _ E). cbn [snd badges].
    apply Forall2_keepsBadge_markUnlocked.
  - rewrite (unlockBadge_not_locked now _ _ E). apply Forall2_keepsBadge_refl.
Qed.

Lemma never_undone_perform (s0 : GameState) (st : Step) (w : World) :
  let P := fun s =>
    Forall2 keepsBadge (badges s0) (badges s) /\
    (forall badgeId, lockedBadge badgeId s0 = None ->
                     lockedBadge badgeId s = None) /\
    (forall stat, Stats.get (stats s0) stat <= Stats.get (stats s) stat) in
  P (game w) -> P (game (perform st w)).
Proof.
  intros P HP. destruct (isLogout st) eqn:El.
  - unfold perform. unfold isLogout in El.
    destruct (action st); try discriminate. exact HP.
  - apply (keeps_perform P (fun _ => True)); try assumption; try exact I;
      try (intros; exact I); try (intros; assumption).
    + intros now badgeId s (Hb & Hl & Hs). split; [|split].
      * eapply Forall2_keepsBadge_trans; [exact Hb | apply keepsBadge_unlock].
      * intros x Hx. apply lockedBadge_unlock_other, Hl, Hx.
      * intros stat.
        destruct (unlockBadge_frame now badgeId s) as (_ & _ & _ & _ & ->).
        apply Hs.
    + intros s stat (Hb & Hl & Hs). split; [exact Hb|]. split; [exact Hl|].
      intros k. cbn [stats]. specialize (Hs k).
      destruct k, stat; cbn in *; lia.
    + unfold admissible. destruct (action st) as [? [?|]| | | | | | |]; exact I.
Qed.

Lemma never_undone_performAll (s0 : GameState) (steps : list Step) :
  forall w,
    Forall2 keepsBadge (badges s0) (badges (game w)) /\
    (forall badgeId, lockedBadge badgeId s0 = None ->
                     lockedBadge badgeId (game w) = None) /\
    (forall stat, Stats.get (stats s0) stat
                  <= Stats.get (stats (game w)) stat) ->
    Forall2 keepsBadge (badges s0) (badges (game (performAll steps w))) /\
    (forall badgeId, lockedBadge badgeId s0 = None ->
                     lockedBadge badgeId (game (performAll steps w)) = None) /\
    (forall stat, Stats.get (stats s0) stat
                  <= Stats.get (stats (game (performAll steps w))) stat).
Proof.
  induction steps as [|st steps IH]; intros w H0; [exact H0|].
  cbn [performAll fold_left]. apply IH.
  apply (never_undone_perform s0 st w H0).
Qed.

(** X4. No action of the store, [logout] and [resetDailyMissions]
    included, takes a badge out of the list, changes its identifier or its
    reward, locks a badge that is unlocked, or lowers an activity counter. *)
Theorem badges_and_counters_never_undone (steps : list Step) (w : World) :
  let s := game w in
  let s' := game (performAll steps w) in
  Forall2 keepsBadge (badges s) (badges s') /\
  (forall badgeId, lockedBadge badgeId s = None ->
                   lockedBadge badgeId s' = None) /\
  (forall stat, Stats.get (stats s) stat <= Stats.get (stats s') stat).
Proof.
  cbv zeta. apply never_undone_performAll.
  split; [apply Forall2_keepsBadge_refl|]. split; [auto | intros; lia].
Qed.

(** ** logout *)

(** X5. [logout] ends the session and sets the user back to a new one (XP
    0, level 1, streak 0, no badge identifiers) but leaves the badge list,
    the missions and the counters: a badge that was unlocked before stays
    unlocked, so [unlockBadge] on it afterwards returns null and adds no
    XP. *)
Theorem logout_keeps_badge_list (now : Clock) (w : World) :
  let w' := logout now w in
  isAuthenticated w' = false /\
  User.xp (user (game w')) = 0 /\
  User.level (user (game w')) = 1 /\
  User.streak (user (game w')) = 0 /\
  User.badges (user (game w')) = [] /\
  User.lastActiveDate (user (game w')) = today now /\
  badges (game w') = badges (game w) /\
  missions (game w') = missions (game w) /\
  stats (game w') = stats (game w) /\
  (forall later badgeId,
     lockedBadge badgeId (game w) = None ->
     unlockBadge later badgeId (game w') = (None, game w') /\
     User.xp (user (exec (unlockBadge later badgeId) (game w'))) = 0).
Proof.
  cbv zeta. repeat split.
  - apply unlockBadge_not_locked. exact H.
  - unfold exec. rewrite unlockBadge_not_locked; [reflexivity | exact H].
Qed.

(** ** getLevelProgress *)

Lemma getLevelProgress_run s :
  getLevelProgress s =
    (let xp := User.xp (user s) in
     let level := User.level (user s) in
     {| current := xp - (level - 1) ^ 2 * 100;
        next := level ^ 2 * 100 - (level - 1) ^ 2 * 100;
        progress := (inject_Z (xp - (level - 1) ^ 2 * 100)
                     / inject_Z (level ^ 2 * 100 - (level - 1) ^ 2 * 100)
                     * 100)%Q |}, s).
Proof. reflexivity. Qed.

Lemma percent_bounds (c n : Z) :
  0 <= c < n -> (0 <= inject_Z c / inject_Z n * 100 < 100)%Q.
Proof.
  intros [Hc Hn].
  destruct n as [|p|p]; try lia.
  unfold Qle, Qlt, Qdiv, Qmult, Qinv, inject_Z. cbn.
  rewrite ?Z.mul_1_r, ?Pos.mul_1_r, ?Pos.mul_1_l. split; nia.
Qed.

(** X6. While the stored level is the level of the stored XP (as it is
    right after [addXP], the level-10 unlock apart) [getLevelProgress]
    stays within the level: [0 <= current < next], where [next] is the
    width [(2 * level - 1) * 100] of the level, and the percentage lies in
    [0, 100); the getter does not change the state. *)
Theorem getLevelProgress_within_level (s : GameState) :
  0 <= User.xp (user s) ->
  User.level (user s) = calculateLevel (User.xp (user s)) ->
  let p := eval getLevelProgress s in
  0 <= current p < next p /\
  next p = (2 * User.level (user s) - 1) * 100 /\
  (0 <= progress p < 100)%Q /\
  exec getLevelProgress s = s.
Proof.
  intros Hx Hl p.
  pose proof (calculateLevel_bracket _ Hx) as Hb. rewrite <- Hl in Hb.
  unfold p, eval, exec. rewrite getLevelProgress_run. cbv zeta.
  cbn [fst snd current next progress].
  assert (Hc : 0 <= User.xp (user s) - (User.level (user s) - 1) ^ 2 * 100
               < User.level (user s) ^ 2 * 100
                 - (User.level (user s) - 1) ^ 2 * 100) by lia.
  split; [exact Hc|]. split; [rewrite !Z.pow_2_r; ring|].
  split; [apply percent_bounds, Hc | reflexivity].
Qed.

(** X7. [unlockBadge] adds the reward without recomputing the level, so
    when the reward is at least the XP missing to the next level,
    [getLevelProgress] leaves the level afterwards: [current] reaches or
    passes [next] and the percentage is 100 or more. *)
Theorem getLevelProgress_after_badge (now : Clock) (badgeId : string)
    (s : GameState) (b : Badge.t) :
  findBadge badgeId (badges s) = Some b ->
  Badge.unlocked b = false ->
  1 <= User.level (user s) ->
  let p := eval getLevelProgress s in
  next p - current p <= Badge.xpReward b ->
  let p' := eval getLevelProgress (exec (unlockBadge now badgeId) s) in
  current p' = current p + Badge.xpReward b /\
  next p' = next p /\
  next p' <= current p' /\
  (100 <= progress p')%Q.
Proof.
  intros Hf Hu Hl p Hr p'.
  assert (Hlk : lockedBadge badgeId s = Some b)
    by (apply lockedBadge_Some_iff; auto).
  unfold p', p, eval, exec in *.
  rewrite (unlockBadge_locked now _ _ _ Hlk).
  rewrite !getLevelProgress_run in *. cbv zeta in *.
  cbn [fst snd current next progress user User.xp User.level
       User.with_badges_xp] in *.
  set (l := User.level (user s)) in *.
  set (c := User.xp (user s) - (l - 1) ^ 2 * 100) in *.
  set (n := l ^ 2 * 100 - (l - 1) ^ 2 * 100) in *.
  assert (Hn : 0 < n) by (unfold n; rewrite !Z.pow_2_r; nia).
  replace (User.xp (user s) + Badge.xpReward b - (l - 1) ^ 2 * 100)
    with (c + Badge.xpReward b) by (unfold c; ring).
  split; [reflexivity|]. split; [reflexivity|]. split; [lia|].
  destruct n as [|q|q]; try lia.
  unfold Qle, Qdiv, Qmult, Qinv, inject_Z. cbn.
  rewrite ?Z.mul_1_r, ?Pos.mul_1_r, ?Pos.mul_1_l. nia.
Qed.

(** ** addXP: the level it stores and reports *)

(** X8. [addXP] stores the level of the XP it has just computed and
    reports it faithfully: [leveledUp] says whether the stored level rose,
    and [newLevel] is the stored level exactly then.  Once that level is
    10 or more the level-10 badge is no longer locked, and its reward, if
    it was still locked, comes on top of [xpGained]. *)
Theorem addXP_level_report (now : Clock) (type : XPEventType)
    (customAmount : option Z) (s : GameState) :
  let r := eval (addXP now type customAmount) s in
  let s' := exec (addXP now type customAmount) s in
  User.level (user s') = calculateLevel (User.xp (user s) + xpGained r) /\
  leveledUp r = (User.level (user s) <? User.level (user s')) /\
  newLevel r = (if leveledUp r then Some (User.level (user s')) else None) /\
  (10 <= User.level (user s') -> lockedBadge "level_10" s' = None) /\
  User.xp (user s') =
    User.xp (user s) + xpGained r
    + (if 10 <=? User.level (user s') then badgeBonus "level_10" s else 0).
Proof.
  cbv zeta.
  pose proof (addXP_xp now type customAmount s) as X.
  pose proof (addXP_lockedBadge now type customAmount s) as L.
  cbv zeta in X, L.
  assert (E : User.level (user (exec (addXP now type customAmount) s)) =
              calculateLevel
                (User.xp (user s)
                 + xpGained (eval (addXP now type customAmount) s))).
  { rewrite exec_addXP. unfold eval. rewrite addXP_run. cbv zeta.
    cbn [fst xpGained].
    match goal with |- context [if ?c then exec ?a ?s1 else _] =>
      destruct (unlockBadge_frame now "level_10" s1) as (_ & _ & F & _);
      destruct c end; [rewrite F|]; reflexivity. }
  rewrite E. split; [reflexivity|].
  split; [unfold eval; rewrite addXP_run; reflexivity|].
  split; [unfold eval; rewrite addXP_run; reflexivity|].
  split; [|exact X].
  intros H10. rewrite L.
  destruct (Z.leb_spec 10
              (calculateLevel
                 (User.xp (user s)
                  + xpGained (eval (addXP now type customAmount) s))));
    [reflexivity | lia].
Qed.

(** ** The streak multiplier *)

Lemma streakQuarters_le (s1 s2 : Z) :
  s1 <= s2 -> streakQuarters s1 <= streakQuarters s2.
Proof.
  intros H. unfold streakQuarters.
  repeat match goal with |- context [?a <=? ?b] =>
    destruct (Z.leb_spec a b) end; lia.
Qed.

(** X9. A longer streak never earns less: for a non-negative base amount
    the [xpGained] of [addXP] is monotone in the streak, at least the base
    amount and at most twice it. *)
Theorem addXP_gain_grows_with_streak (now : Clock) (type : XPEventType)
    (customAmount : option Z) (s1 s2 : GameState) :
  0 <= baseAmount type customAmount ->
  User.streak (user s1) <= User.streak (user s2) ->
  let g1 := xpGained (eval (addXP now type customAmount) s1) in
  let g2 := xpGained (eval (addXP now type customAmount) s2) in
  g1 <= g2 /\
  baseAmount type customAmount <= g1 /\
  g2 <= 2 * baseAmount type customAmount.
Proof.
  intros Hb Hs. cbv zeta. rewrite !addXP_gain, !streakMultiplier_floor.
  pose proof (streakQuarters_le _ _ Hs) as Hq.
  pose proof (streakQuarters_bounds (User.streak (user s1))) as B1.
  pose proof (streakQuarters_bounds (User.streak (user s2))) as B2.
  set (b := baseAmount type customAmount) in *.
  split; [apply Z.div_le_mono; nia|]. split.
  - apply Z.div_le_lower_bound; nia.
  - apply Z.div_le_upper_bound; nia.
Qed.

(** ** resetDailyMissions *)

(** X10. [resetDailyMissions] puts the four daily missions back whatever
    the missions were, and leaves user, badges and counters: no XP is
    taken back.  A catalogue mission can then be completed again, and is
    awarded again. *)
Theorem resetDailyMissions_awards_again (now : Clock) (s : GameState)
    (m : Mission.t) (amount : Z) :
  In m DAILY_MISSIONS ->
  Mission.target m <= amount ->
  let s1 := exec resetDailyMissions s in
  let s2 := exec (updateMissionProgress now (Mission.type m) amount) s1 in
  missions s1 = DAILY_MISSIONS /\
  user s1 = user s /\ badges s1 = badges s /\ stats s1 = stats s /\
  In (Mission.with_progress m (Mission.target m) true) (missions s2) /\
  User.xp (user s2) = User.xp (user s) + missionGain s m + level10Bonus s s2.
Proof.
  intros Hin Ht s1 s2.
  split; [reflexivity|]. split; [reflexivity|].
  split; [reflexivity|]. split; [reflexivity|].
  unfold s2. rewrite updateMissionProgress_exec. cbv zeta.
  cbn [missions user].
  assert (Hf : filter (completes (Mission.type m) amount) (missions s1) = [m] /\
               In (Mission.with_progress m (Mission.target m) true)
                  (map (advanced (Mission.type m) amount) (missions s1))).
  { unfold s1. cbn [resetDailyMissions set_missions exec snd missions].
    unfold DAILY_MISSIONS in *. cbn [In] in Hin.
    destruct Hin as [<- | [<- | [<- | [<- | []]]]];
      cbn [filter map completes advanced advances Mission.type
           Mission.completed Mission.progress Mission.target mkMission
           MissionType_eqb andb negb] in *;
      rewrite ?Z.add_0_l, ?Z.min_r by lia; cbn; auto 6. }
  destruct Hf as [Hf Hi]. split; [exact Hi|].
  rewrite Hf. cbn [map]. rewrite awardAll_xp. cbv zeta.
  cbn [map sumZ fold_right]. unfold missionGain.
  replace (User.streak (user s1)) with (User.streak (user s)) by reflexivity.
  replace (User.xp (user s1)) with (User.xp (user s)) by reflexivity.
  unfold level10Bonus.
  replace (lockedBadge "level_10" s1) with (lockedBadge "level_10" s)
    by reflexivity.
  match goal with |- context [lockedBadge "level_10" (mkState ?u ?bs ?ms ?st)] =>
    change (lockedBadge "level_10" (mkState u bs ms st))
      with (lockedBadge "level_10" (exec (awardAll now [Mission.xpReward m]) s1))
  end.
  destruct (lockedBadge "level_10" s); [|lia].
  destruct (lockedBadge "level_10" _); lia.
Qed.

(** ** Visits day after day *)

Lemma updateStreak_week now s :
  7 <= User.streak (user (exec (updateStreak now) s)) ->
  lockedBadge "week_streak" (exec (updateStreak now) s) = None.
Proof.
  rewrite updateStreak_exec. cbv zeta.
  match goal with |- context [if 7 <=? ?n then exec ?c ?s1 else _] =>
    set (s1' := s1); set (n' := n) in *;
    destruct (unlockBadge_frame now "week_streak" s1') as (F & _)
  end.
  destruct (Z.leb_spec 7 n') as [H7 | H7].
  - intros _. apply lockedBadge_after_unlock.
  - cbn [s1' user User.streak User.with_streak_date]. lia.
Qed.

Lemma exec_visits_cons c cs s :
  exec (visits (c :: cs)) s = exec (visits cs) (exec (updateStreak c) s).
Proof. cbn [visits]. rewrite exec_bind. reflexivity. Qed.

(** X11. Visits without a gap, away from changes of the UTC offset: when
    [updateStreak] runs at readings that each fall on the day of the
    previous visit or on the day after, and at none of them the offset of
    the time zone differs from the one a local day earlier, the streak
    grows by exactly the number of days gone by, however many visits
    there are in a day; and a streak of 7 or more leaves the week-streak
    badge unlocked. *)
Theorem streak_counts_days (clocks : list Clock) (s : GameState) :
  withoutGap (User.lastActiveDate (user s)) clocks ->
  Forall steady clocks ->
  let d := User.lastActiveDate (user s) in
  let s' := exec (visits clocks) s in
  User.lastActiveDate (user s') = lastDay d clocks /\
  User.streak (user s') = User.streak (user s) + (lastDay d clocks - d) /\
  (clocks <> [] -> 7 <= User.streak (user s') ->
   lockedBadge "week_streak" s' = None).
Proof.
  revert s. induction clocks as [|c cs IH]; intros s Hgap Hsteady.
  - cbn. split; [reflexivity|]. split; [lia | congruence].
  - destruct Hgap as [Hc Hrest]. cbv zeta. rewrite exec_visits_cons.
    inversion Hsteady as [|? ? Hsc Hscs]; subst.
    destruct (updateStreak_user c s) as [_ Hl]. cbv zeta in Hl.
    pose proof (updateStreak_user_rolled c s (yesterdayStr_steady c Hsc))
      as Hs.
    rewrite <- Hl in Hrest.
    destruct (IH _ Hrest Hscs) as (I1 & I2 & I3). cbv zeta in I1, I2, I3.
    rewrite Hl in I1, I2. cbn [lastDay].
    split; [exact I1|]. split.
    + rewrite I2, Hs. unfold rolledStreak.
      destruct Hc as [Hc | Hc]; rewrite Hc.
      * replace (User.lastActiveDate (user s) =? User.lastActiveDate (user s) - 1)
          with false by (symmetry; apply Z.eqb_neq; lia).
        rewrite Z.eqb_refl. lia.
      * replace (User.lastActiveDate (user s)
                 =? User.lastActiveDate (user s) + 1 - 1)
          with true by (symmetry; apply Z.eqb_eq; lia).
        lia.
    + intros _ H7. destruct cs as [|c' cs'].
      * cbn [visits]. rewrite exec_ret in *. apply updateStreak_week, H7.
      * apply I3; [discriminate | exact H7].
Qed.

(** ** Counters over many increments *)

Lemma exec_incrementTimes_S now stat n s :
  exec (incrementTimes now stat (S n)) s =
  exec (incrementTimes now stat n) (exec (incrementStat now stat) s).
Proof. cbn [incrementTimes]. rewrite exec_bind. reflexivity. Qed.

Lemma incrementStat_effect now stat s :
  let value := Stats.get (stats s) stat + 1 in
  let badge := ruleBadge (thresholdRule stat) in
  let s' := exec (incrementStat now stat) s in
  stats s' = Stats.set (stats s) stat value /\
  missions s' = missions s /\
  (satisfied (thresholdRule stat) value = true ->
   lockedBadge badge s' = None) /\
  (satisfied (thresholdRule stat) value = false ->
   user s' = user s /\ badges s' = badges s) /\
  (lockedBadge badge s = None -> lockedBadge badge s' = None) /\
  User.xp (user s') =
    User.xp (user s)
    + match lockedBadge badge s, lockedBadge badge s' with
      | Some b, None => Badge.xpReward b
      | _, _ => 0
      end.
Proof.
  cbv zeta. rewrite incrementStat_exec. cbv zeta.
  set (s1 := mkState (user s) (badges s) (missions s) _).
  set (badge := ruleBadge (thresholdRule stat)).
  assert (L1 : lockedBadge badge s1 = lockedBadge badge s) by reflexivity.
  destruct (unlockBadge_frame now badge s1) as (_ & _ & _ & Fm & Fs).
  pose proof (badgeBonus_xp now badge s1) as X.
  pose proof (lockedBadge_after_unlock now badge s1) as La.
  destruct (satisfied _ _).
  - rewrite Fm, Fs, X, La. unfold badgeBonus. rewrite L1.
    split; [reflexivity|]. split; [reflexivity|]. split; [reflexivity|].
    split; [discriminate|]. split; [reflexivity|].
    destruct (lockedBadge badge s); reflexivity.
  - split; [reflexivity|]. split; [reflexivity|]. split; [discriminate|].
    split; [auto|]. split; [auto|].
    change (lockedBadge badge s1) with (lockedBadge badge s).
    destruct (lockedBadge badge s); cbn; lia.
Qed.

Lemma incrementTimes_keeps_unlocked now stat n :
  forall s,
    lockedBadge (ruleBadge (thresholdRule stat)) s = None ->
    lockedBadge (ruleBadge (thresholdRule stat))
      (exec (incrementTimes now stat n) s) = None.
Proof.
  induction n as [|n IH]; intros s H; [exact H|].
  rewrite exec_incrementTimes_S. apply IH.
  destruct (incrementStat_effect now stat s) as (_ & _ & _ & _ & Ek & _).
  apply Ek, H.
Qed.

(** X12. [n] increments of one counter in a row raise it by exactly [n]
    and leave the other counters.  The badge of the counter is unlocked
    by the run if its rule holds of one of the values passed, and then
    its reward is added once; if the rule holds of none of them, user and
    badges are as before. *)
Theorem incrementTimes_counts (now : Clock) (stat : Key.t) (n : nat)
    (s : GameState) :
  let rule := thresholdRule stat in
  let count := Stats.get (stats s) stat in
  let s' := exec (incrementTimes now stat n) s in
  Stats.get (stats s') stat = count + Z.of_nat n /\
  (forall other, other <> stat ->
     Stats.get (stats s') other = Stats.get (stats s) other) /\
  (forall k, 1 <= k <= Z.of_nat n -> satisfied rule (count + k) = true ->
     lockedBadge (ruleBadge rule) s' = None) /\
  ((forall k, 1 <= k <= Z.of_nat n -> satisfied rule (count + k) = false) ->
   user s' = user s /\ badges s' = badges s) /\
  User.xp (user s') =
    User.xp (user s)
    + match lockedBadge (ruleBadge rule) s, lockedBadge (ruleBadge rule) s' with
      | Some b, None => Badge.xpReward b
      | _, _ => 0
      end.
Proof.
  cbv zeta. revert s. induction n as [|n IH]; intros s.
  - cbn [incrementTimes]. rewrite exec_ret. cbn [Z.of_nat].
    split; [lia|]. split; [reflexivity|]. split; [intros; lia|].
    split; [auto|]. destruct (lockedBadge _ s); lia.
  - rewrite exec_incrementTimes_S.
    destruct (incrementStat_effect now stat s)
      as (Es & _ & Eu & Ef & Ek & Ex). cbv zeta in *.
    set (s1 := exec (incrementStat now stat) s) in *.
    destruct (IH s1) as (I1 & I2 & I3 & I4 & I5).
    assert (C1 : Stats.get (stats s1) stat = Stats.get (stats s) stat + 1)
      by (rewrite Es; apply Stats_get_set).
    rewrite C1 in *.
    pose proof (incrementTimes_keeps_unlocked now stat n s1) as Hkeep.
    split; [rewrite I1; lia|]. split.
    + intros other Hne. rewrite (I2 other Hne), Es.
      apply Stats_get_set_other, Hne.
    + split.
      * intros k Hk Hsat. destruct (Z.eq_dec k 1) as [-> | Hk1].
        -- apply Hkeep, Eu, Hsat.
        -- apply (I3 (k - 1)); [lia|].
           replace (Stats.get (stats s) stat + 1 + (k - 1))
             with (Stats.get (stats s) stat + k) by lia. exact Hsat.
      * split.
        -- intros Hnone.
           destruct (Ef (Hnone 1 ltac:(lia))) as [Eu1 Eb1].
           destruct I4 as [Iu Ib].
           { intros k Hk.
             replace (Stats.get (stats s) stat + 1 + k)
               with (Stats.get (stats s) stat + (k + 1)) by lia.
             apply Hnone. lia. }
           split; congruence.
        -- assert (HAB : forall b b1,
                     lockedBadge (ruleBadge (thresholdRule stat)) s = Some b ->
                     lockedBadge (ruleBadge (thresholdRule stat)) s1 = Some b1 ->
                     b1 = b).
           { intros b b1 L0 L1.
             destruct (satisfied (thresholdRule stat)
                         (Stats.get (stats s) stat + 1)) eqn:Es1.
             - pose proof (Eu eq_refl). congruence.
             - destruct (Ef eq_refl) as [_ Hbs].
               unfold lockedBadge in L0, L1. rewrite Hbs in L1. congruence. }
           rewrite I5, Ex. clear - HAB Hkeep Ek.
           remember (lockedBadge (ruleBadge (thresholdRule stat)) s) as A.
           remember (lockedBadge (ruleBadge (thresholdRule stat)) s1) as B.
           remember (lockedBadge (ruleBadge (thresholdRule stat))
                       (exec (incrementTimes now stat n) s1)) as C.
           clear HeqA HeqB HeqC.
           destruct A as [a|], B as [b|], C as [c|];
             try specialize (HAB _ _ eq_refl eq_refl); subst;
             try (specialize (Hkeep eq_refl); discriminate);
             try (specialize (Ek eq_refl); discriminate); lia.
Qed.

(** ** The doubt solver's reward *)

Lemma updateMissionProgress_frame now type amount s :
  let s' := exec (updateMissionProgress now type amount) s in
  User.streak (user s') = User.streak (user s) /\ stats s' = stats s.
Proof.
  cbv zeta. rewrite updateMissionProgress_exec. cbv zeta. cbn [user stats].
  match goal with |- context [exec (awardAll now ?rs) s] =>
    destruct (awardAll_frame now rs s) as (F1 & _ & F3) end.
  auto.
Qed.

Lemma incrementStat_streak now stat s :
  User.streak (user (exec (incrementStat now stat) s)) = User.streak (user s).
Proof.
  rewrite incrementStat_exec. cbv zeta.
  match goal with |- context [if ?c then exec ?a ?s1 else _] =>
    destruct (unlockBadge_frame now (ruleBadge (thresholdRule stat)) s1)
      as (F & _); destruct c end; [rewrite F|]; reflexivity.
Qed.

Lemma rewardSolvedDoubt_run now withSolution s :
  eval (rewardSolvedDoubt now withSolution) s =
    xpGained (eval (addXP now correct_step (Some 20)) s) /\
  exec (rewardSolvedDoubt now withSolution) s =
    exec (updateMissionProgress now doubt 1)
      (exec (when withSolution (incrementStat now Key.stepsSubmitted))
         (exec (incrementStat now Key.doubtsAsked)
            (exec (addXP now correct_step (Some 20)) s))).
Proof.
  unfold rewardSolvedDoubt.
  rewrite !eval_bind, !exec_bind, eval_ret, exec_ret. split; reflexivity.
Qed.

(** X13. One solved doubt: the toast reports [5 * quarters] XP for the
    streak multiplier of [quarters / 4], between 20 and 40; the counter of
    doubts grows by one, the counter of steps by one exactly when a
    solution was sent along, the other counters and the streak stay; and
    with non-negative rewards the XP really gained is at least what the
    toast reports (badges and the doubt mission come on top). *)
Theorem rewardSolvedDoubt_report (now : Clock) (withSolution : bool)
    (s : GameState) :
  rewardsNonneg s ->
  let reported := eval (rewardSolvedDoubt now withSolution) s in
  let s' := exec (rewardSolvedDoubt now withSolution) s in
  reported = 5 * streakQuarters (User.streak (user s)) /\
  20 <= reported <= 40 /\
  Stats.doubtsAsked (stats s') = Stats.doubtsAsked (stats s) + 1 /\
  Stats.stepsSubmitted (stats s') =
    Stats.stepsSubmitted (stats s) + (if withSolution then 1 else 0) /\
  (forall stat, stat <> Key.doubtsAsked -> stat <> Key.stepsSubmitted ->
     Stats.get (stats s') stat = Stats.get (stats s) stat) /\
  User.streak (user s') = User.streak (user s) /\
  User.xp (user s) + reported <= User.xp (user s').
Proof.
  intros Hr. cbv zeta.
  destruct (rewardSolvedDoubt_run now withSolution s) as [-> ->].
  rewrite addXP_gain, streakMultiplier_floor. cbn [baseAmount].
  pose proof (streakQuarters_bounds (User.streak (user s))) as Hq.
  assert (E5 : 20 * streakQuarters (User.streak (user s)) / 4 =
               5 * streakQuarters (User.streak (user s))).
  { replace (20 * streakQuarters (User.streak (user s)))
      with (5 * streakQuarters (User.streak (user s)) * 4) by ring.
    apply Z.div_mul. lia. }
  rewrite E5.
  set (s1 := exec (addXP now correct_step (Some 20)) s).
  set (s2 := exec (incrementStat now Key.doubtsAsked) s1).
  set (s3 := exec (when withSolution (incrementStat now Key.stepsSubmitted)) s2).
  destruct (addXP_frame now correct_step (Some 20) s) as (F1 & _ & _ & S1).
  fold s1 in F1, S1.
  destruct (incrementStat_effect now Key.doubtsAsked s1) as (S2 & _).
  cbv zeta in S2. fold s2 in S2.
  pose proof (incrementStat_streak now Key.doubtsAsked s1) as F2. fold s2 in F2.
  assert (S3 : stats s3 =
               if withSolution
               then Stats.set (stats s2) Key.stepsSubmitted
                      (Stats.get (stats s2) Key.stepsSubmitted + 1)
               else stats s2).
  { unfold s3. rewrite exec_when. destruct withSolution; [|reflexivity].
    destruct (incrementStat_effect now Key.stepsSubmitted s2) as (E & _).
    exact E. }
  assert (F3 : User.streak (user s3) = User.streak (user s2)).
  { unfold s3. rewrite exec_when. destruct withSolution; [|reflexivity].
    apply incrementStat_streak. }
  destruct (updateMissionProgress_frame now doubt 1 s3) as (F4 & S4).
  split; [reflexivity|]. split; [lia|].
  rewrite S4, S3, S2, S1, F4, F3, F2, F1.
  split; [destruct withSolution; reflexivity|].
  split; [destruct withSolution; cbn; lia|].
  split; [intros stat H1 H2; destruct withSolution, stat; cbn; congruence|].
  split; [reflexivity|].
  (* the XP *)
  pose proof (addXP_xp now correct_step (Some 20) s) as X. cbv zeta in X.
  rewrite addXP_gain, streakMultiplier_floor in X. cbn [baseAmount] in X.
  rewrite E5 in X. fold s1 in X.
  pose proof (badgeBonus_nonneg "level_10" s Hr) as Hb.
  assert (X1 : User.xp (user s)
               + 5 * streakQuarters (User.streak (user s))
               <= User.xp (user s1))
    by (rewrite X; destruct (10 <=? _); lia).
  assert (R1 : rewardsNonneg s1).
  { apply (xp_keeps_perform (User.xp (user s))
             {| clock := now; action := DoAddXP correct_step (Some 20) |}
             {| game := s; authSession := None |});
      [reflexivity | cbn; lia | split; [exact Hr | cbn; lia]]. }
  set (mk := fun a => {| clock := now; action := a |}).
  set (steps := ([mk (DoIncrementStat Key.doubtsAsked)]
                 ++ (if withSolution
                     then [mk (DoIncrementStat Key.stepsSubmitted)] else [])
                 ++ [mk (DoUpdateMissionProgress doubt 1)])%list).
  assert (Hrun : exec (updateMissionProgress now doubt 1) s3 =
                 game (performAll steps {| game := s1; authSession := None |})).
  { unfold steps, s3, s2. destruct withSolution; cbn [app performAll fold_left];
      unfold perform; cbn [action clock mk onGame game];
      rewrite exec_when; reflexivity. }
  rewrite Hrun.
  apply (xp_keeps_performAll
           (User.xp (user s) + 5 * streakQuarters (User.streak (user s)))
           steps {| game := s1; authSession := None |}).
  - unfold steps. destruct withSolution; repeat constructor.
  - unfold steps. destruct withSolution; repeat constructor.
  - split; [exact R1 | exact X1].
Qed.

(** ** Level titles *)

Lemma calculateLevel_le_iff (xp t : Z) :
  0 <= xp -> 1 <= t ->
  (calculateLevel xp <= t <-> xp < t ^ 2 * 100).
Proof.
  intros Hx Ht.
  pose proof (calculateLevel_bracket xp Hx) as [Hlo Hhi].
  pose proof (calculateLevel_positive xp) as Hp.
  rewrite !Z.pow_2_r in *. split; intros H; nia.
Qed.

(** X14. The title of a learner by XP: with the stored level the level of
    the XP, [getLevelTitle] changes at 2 500, 10 000, 40 000, 122 500,
    250 000 and 562 500 XP, the squares of the level bounds 5, 10, 20, 35,
    50 and 75 times 100. *)
Theorem getLevelTitle_by_xp (xp : Z) :
  0 <= xp ->
  getLevelTitle (calculateLevel xp) = titleOfXP xp.
Proof.
  intros Hx. unfold getLevelTitle, titleOfXP.
  pose proof (calculateLevel_le_iff xp 5 Hx ltac:(lia)) as H5.
  pose proof (calculateLevel_le_iff xp 10 Hx ltac:(lia)) as H10.
  pose proof (calculateLevel_le_iff xp 20 Hx ltac:(lia)) as H20.
  pose proof (calculateLevel_le_iff xp 35 Hx ltac:(lia)) as H35.
  pose proof (calculateLevel_le_iff xp 50 Hx ltac:(lia)) as H50.
  pose proof (calculateLevel_le_iff xp 75 Hx ltac:(lia)) as H75.
  change (5 ^ 2 * 100) with 2500 in H5.
  change (10 ^ 2 * 100) with 10000 in H10.
  change (20 ^ 2 * 100) with 40000 in H20.
  change (35 ^ 2 * 100) with 122500 in H35.
  change (50 ^ 2 * 100) with 250000 in H50.
  change (75 ^ 2 * 100) with 562500 in H75.
  repeat match goal with
         | |- context [?a <=? ?b] => destruct (Z.leb_spec a b)
         | |- context [?a <? ?b] => destruct (Z.ltb_spec a b)
         end; try reflexivity; exfalso; lia.
Qed.

(** ** The schedule of a study plan *)

Lemma mapHas_In date (m : DateMap) :
  mapHas date m = true <-> In date (map fst m).
Proof.
  unfold mapHas. rewrite existsb_exists. split.
  - intros (e & He & Hk). apply String.eqb_eq in Hk. subst.
    apply in_map, He.
  - intros H. apply in_map_iff in H as (e & <- & He).
    exists e. split; [exact He | apply String.eqb_refl].
Qed.

Lemma mapGet_app_new date d (v : list Task.t) (m : DateMap) :
  ~ In d (map fst m) ->
  mapGet date (m ++ [(d, v)])%list =
    if (d =? date)%string then Some v else mapGet date m.
Proof.
  unfold mapGet. induction m as [|[k l] m IH]; cbn; intros Hn.
  - destruct (d =? date)%string; reflexivity.
  - destruct (k =? date)%string eqn:E.
    + apply String.eqb_eq in E. subst k.
      destruct (String.eqb_spec d date) as [-> | _]; [|reflexivity].
      exfalso. apply Hn. left. reflexivity.
    + apply IH. intros H. apply Hn. right. exact H.
Qed.

Lemma mapGet_mapPush date d task (m : DateMap) :
  mapGet date (mapPush d task m) =
    if (d =? date)%string
    then option_map (fun l => (l ++ [task])%list) (mapGet date m)
    else mapGet date m.
Proof.
  unfold mapGet, mapPush. induction m as [|[k l] m IH]; cbn.
  - destruct (d =? date)%string; reflexivity.
  - destruct (String.eqb_spec k d) as [-> | Hkd]; cbn.
    + destruct (String.eqb_spec d date) as [-> | Hd]; [reflexivity | exact IH].
    + destruct (String.eqb_spec k date) as [-> | Hk].
      * destruct (String.eqb_spec d date) as [-> | _];
          [congruence | reflexivity].
      * exact IH.
Qed.

Lemma keys_mapPush d task (m : DateMap) :
  map fst (mapPush d task m) = map fst m.
Proof.
  unfold mapPush. induction m as [|[k l] m IH]; cbn; [reflexivity|].
  rewrite IH. destruct (k =? d)%string; reflexivity.
Qed.

Lemma mapGet_None date (m : DateMap) :
  mapGet date m = None <-> ~ In date (map fst m).
Proof.
  unfold mapGet. induction m as [|[k l] m IH]; cbn.
  - split; auto.
  - destruct (String.eqb_spec k date) as [-> | Hk]; cbn.
    + split; [discriminate | intros H; exfalso; apply H; auto].
    + rewrite IH. split; intros H; [intros [?|?]; [congruence | auto] | auto].
Qed.

Lemma mapGet_In d l (m : DateMap) :
  NoDup (map fst m) -> In (d, l) m -> mapGet d m = Some l.
Proof.
  unfold mapGet. induction m as [|[k v] m IH]; cbn; intros Hnd Hin; [easy|].
  inversion Hnd as [|? ? Hk Hnd']; subst.
  destruct Hin as [[= -> ->] | Hin].
  - rewrite String.eqb_refl. reflexivity.
  - destruct (String.eqb_spec k d) as [-> | _].
    + exfalso. apply Hk. apply (in_map fst) in Hin. exact Hin.
    + apply IH; assumption.
Qed.

(** The tasks stored under a date, none when the date is not a key. *)
Lemma addItem_spec subject chapters (m : DateMap) item :
  NoDup (map fst m) ->
  let m' := addItem subject chapters m item in
  NoDup (map fst m') /\
  (forall d, In d (map fst m') <-> In d (map fst m) \/ d = Item.date item) /\
  (forall d,
     match mapGet d m' with Some l => l | None => [] end =
     (match mapGet d m with Some l => l | None => [] end
      ++ tasksOn subject chapters d [item])%list).
Proof.
  intros Hnd m'. unfold m', addItem. cbv zeta.
  set (date := Item.date item).
  set (m1 := if negb (mapHas date m) then mapSet date [] m else m).
  assert (H1 : NoDup (map fst m1) /\
               (forall d, In d (map fst m1) <-> In d (map fst m) \/ d = date) /\
               (forall d, match mapGet d m1 with Some l => l | None => [] end =
                          match mapGet d m with Some l => l | None => [] end) /\
               In date (map fst m1)).
  { unfold m1, mapSet. destruct (mapHas date m) eqn:Eh; cbn [negb].
    - apply mapHas_In in Eh. repeat split; auto.
      intros [H | ->]; auto.
    - assert (Hn : ~ In date (map fst m))
        by (rewrite <- mapHas_In; congruence).
      rewrite map_app. cbn [map fst]. repeat split.
      + apply NoDup_app; repeat split; auto.
        * constructor; [intros []|constructor].
        * intros x Hx [<- | []]. exact (Hn Hx).
      + intros H. apply in_app_or in H as [H | [<- | []]]; auto.
      + intros [H | ->]; apply in_or_app; [left | right; left]; auto.
      + intros d. rewrite (mapGet_app_new d date [] m Hn).
        destruct (String.eqb_spec date d) as [<- | _]; [|reflexivity].
        apply mapGet_None in Hn. rewrite Hn. reflexivity.
      + apply in_or_app. right. left. reflexivity. }
  destruct H1 as (N1 & K1 & G1 & I1).
  unfold tasksOn. cbn [flat_map]. fold date.
  destruct (chapterAt chapters (Item.chapterIndex item)) as [chapter|].
  - rewrite keys_mapPush. split; [exact N1|]. split; [exact K1|].
    intros d. rewrite mapGet_mapPush, <- G1.
    destruct (String.eqb_spec date d) as [<- | Hne].
    + rewrite ?String.eqb_refl.
      destruct (mapGet date m1) as [l|] eqn:Eg; cbn [option_map].
      * rewrite app_nil_r. reflexivity.
      * apply mapGet_None in Eg. contradiction.
    + rewrite ?app_nil_r. reflexivity.
  - split; [exact N1|]. split; [exact K1|].
    intros d. rewrite G1.
    destruct (date =? d)%string; rewrite app_nil_r; reflexivity.
Qed.

Lemma tasksOn_cons subject chapters d item items :
  tasksOn subject chapters d (item :: items) =
  (tasksOn subject chapters d [item] ++ tasksOn subject chapters d items)%list.
Proof. unfold tasksOn. cbn [flat_map]. rewrite app_nil_r. reflexivity. Qed.

Lemma fold_addItem_spec subject chapters items :
  forall m : DateMap,
  NoDup (map fst m) ->
  let m' := fold_left (addItem subject chapters) items m in
  NoDup (map fst m') /\
  (forall d, In d (map fst m') <->
             In d (map fst m) \/ exists item, In item items /\ Item.date item = d) /\
  (forall d,
     match mapGet d m' with Some l => l | None => [] end =
     (match mapGet d m with Some l => l | None => [] end
      ++ tasksOn subject chapters d items)%list).
Proof.
  induction items as [|item items IH]; intros m Hnd; cbn [fold_left].
  - split; [exact Hnd|]. split.
    + intros d. split; [auto | intros [H | (i & [] & _)]; exact H].
    + intros d. cbn. rewrite app_nil_r. reflexivity.
  - destruct (addItem_spec subject chapters m item Hnd) as (N1 & K1 & G1).
    cbv zeta in N1, K1, G1.
    destruct (IH _ N1) as (N2 & K2 & G2). cbv zeta in N2, K2, G2.
    split; [exact N2|]. split.
    + intros d. rewrite K2, K1. split.
      * intros [[H | Hd] | (i & Hi & Hd)].
        -- left. exact H.
        -- right. exists item. split; [left; reflexivity | auto].
        -- right. exists i. split; [right|]; assumption.
      * intros [H | (i & [<- | Hi] & Hd)].
        -- left. left. exact H.
        -- left. right. auto.
        -- right. exists i. auto.
    + intros d.
      rewrite G2, G1, (tasksOn_cons subject chapters d item items), app_assoc.
      reflexivity.
Qed.

Lemma insertBy_perm {A} (compare : A -> A -> Z) x l :
  Permutation (insertBy compare x l) (x :: l).
Proof.
  induction l as [|y l IH]; cbn; [reflexivity|].
  destruct (compare x y <=? 0); [reflexivity|].
  rewrite IH. apply perm_swap.
Qed.

Lemma sortBy_perm {A} (compare : A -> A -> Z) l :
  Permutation (sortBy compare l) l.
Proof.
  induction l as [|x l IH]; cbn; [reflexivity|].
  rewrite insertBy_perm. constructor. exact IH.
Qed.

(** X15. The schedule of a plan.  An empty plan is refused with "No study
    plan generated".  For any other plan, and any comparator, the
    schedule has exactly one day for each date that occurs in the plan,
    also for the dates whose items all point outside the chapters; no
    date twice; and the tasks of a day are those of the items of its
    date whose chapter exists, one each, in the order of the plan. *)
Theorem scheduleOfPlan_groups (localeCompare : string -> string -> Z)
    (subject : string) (chapters : list Chapter.t)
    (schedulePlan : list Item.t) :
  match scheduleOfPlan localeCompare subject chapters schedulePlan with
  | inl message =>
      schedulePlan = [] /\ message = "No study plan generated"
  | inr schedule =>
      schedulePlan <> [] /\ schedule <> [] /\
      NoDup (map ScheduleDay.date schedule) /\
      (forall date, In date (map ScheduleDay.date schedule) <->
                    exists item, In item schedulePlan /\
                                 Item.date item = date) /\
      (forall day, In day schedule ->
         ScheduleDay.tasks day =
         tasksOn subject chapters (ScheduleDay.date day) schedulePlan)
  end.
Proof.
  unfold scheduleOfPlan.
  destruct schedulePlan as [|item0 items]; [cbn; auto|].
  cbn [List.length Nat.eqb]. set (plan := item0 :: items).
  set (m := fold_left (addItem subject chapters) plan []).
  destruct (fold_addItem_spec subject chapters plan [] (NoDup_nil _))
    as (Hnd & Hk & Hg). cbv zeta in Hnd, Hk, Hg. fold m in Hnd, Hk, Hg.
  set (days := map (fun e => ScheduleDay.mk (fst e) (snd e)) m).
  pose proof (sortBy_perm
                (fun a b => localeCompare (ScheduleDay.date a)
                                          (ScheduleDay.date b)) days) as Hp.
  assert (Hd : map ScheduleDay.date days = map fst m).
  { unfold days. rewrite map_map. reflexivity. }
  assert (Hdates : forall date,
            In date (map ScheduleDay.date
                       (sortBy (fun a b => localeCompare (ScheduleDay.date a)
                                              (ScheduleDay.date b)) days)) <->
            exists item, In item plan /\ Item.date item = date).
  { intros date. split; intros H.
    - apply (Permutation_in _ (Permutation_map ScheduleDay.date Hp)) in H.
      rewrite Hd in H. apply Hk in H as [[] | H]. exact H.
    - apply (Permutation_in _
               (Permutation_map ScheduleDay.date (Permutation_sym Hp))).
      rewrite Hd. apply Hk. right. exact H. }
  split; [discriminate|]. split.
  - intros Hnil.
    assert (Hin : In (Item.date item0)
                    (map ScheduleDay.date
                       (sortBy (fun a b => localeCompare (ScheduleDay.date a)
                                              (ScheduleDay.date b)) days))).
    { apply Hdates. exists item0. split; [left|]; reflexivity. }
    rewrite Hnil in Hin. exact Hin.
  - split.
    + eapply Permutation_NoDup;
        [apply Permutation_map, Permutation_sym, Hp|].
      rewrite Hd. exact Hnd.
    + split; [exact Hdates|].
      intros day Hday.
      apply (Permutation_in _ Hp) in Hday. unfold days in Hday.
      apply in_map_iff in Hday as ([d l] & <- & He). cbn [fst snd ScheduleDay.date ScheduleDay.tasks].
      pose proof (mapGet_In d l m Hnd He) as Hget.
      specialize (Hg d). rewrite Hget in Hg. cbn in Hg. exact Hg.
Qed.

Section SortBy.
Context {A : Type} (compare : A -> A -> Z).
Hypothesis compare_total : forall a b, compare a b <= 0 \/ compare b a <= 0.
Hypothesis compare_trans : forall a b c,
    compare a b <= 0 -> compare b c <= 0 -> compare a c <= 0.

Lemma insertBy_sorted x l :
    StronglySorted (fun a b => compare a b <= 0) l ->
    StronglySorted (fun a b => compare a b <= 0) (insertBy compare x l).
  Proof.
    induction 1 as [|y l Hs IH Hy]; cbn.
    - repeat constructor.
    - destruct (Z.leb_spec (compare x y) 0) as [Hxy | Hxy].
      + constructor; [constructor; assumption|].
        constructor; [exact Hxy|].
        rewrite Forall_forall in *. intros z Hz.
        eapply compare_trans; [exact Hxy | apply Hy, Hz].
      + constructor; [exact IH|].
        rewrite Forall_forall in *. intros z Hz.
        apply (Permutation_in _ (insertBy_perm compare x l)) in Hz.
        destruct Hz as [<- | Hz]; [|apply Hy, Hz].
        destruct (compare_total x y); [lia | assumption].
  Qed.

Lemma sortBy_sorted l :
    StronglySorted (fun a b => compare a b <= 0) (sortBy compare l).
  Proof.
    induction l as [|x l IH]; cbn; [constructor|].
    apply insertBy_sorted, IH.
  Qed.
End SortBy.

(** X16. When the comparator orders dates totally and transitively, the
    schedule comes out ordered by date: every day stands before all the
    days that compare after it.  The sort only reorders the days that the
    grouping produced. *)
Theorem scheduleOfPlan_sorted (localeCompare : string -> string -> Z)
    (subject : string) (chapters : list Chapter.t)
    (schedulePlan : list Item.t) (schedule : list ScheduleDay.t) :
  (forall a b, localeCompare a b <= 0 \/ localeCompare b a <= 0) ->
  (forall a b c, localeCompare a b <= 0 -> localeCompare b c <= 0 ->
                 localeCompare a c <= 0) ->
  scheduleOfPlan localeCompare subject chapters schedulePlan = inr schedule ->
  StronglySorted
    (fun a b => localeCompare (ScheduleDay.date a) (ScheduleDay.date b) <= 0)
    schedule /\
  Permutation schedule
    (map (fun e => ScheduleDay.mk (fst e) (snd e))
       (fold_left (addItem subject chapters) schedulePlan [])).
Proof.
  intros Htotal Htrans. unfold scheduleOfPlan.
  destruct (List.length schedulePlan =? 0)%nat; [discriminate|].
  intros [= <-]. split.
  - apply (sortBy_sorted
             (fun a b => localeCompare (ScheduleDay.date a)
                                       (ScheduleDay.date b))).
    + intros a b. apply Htotal.
    + intros a b c. apply Htrans.
  - apply sortBy_perm.
Qed.

(** The comparison of strings character by character is such a
    comparator. *)
Lemma compareStrings_total a b :
  compareStrings a b <= 0 \/ compareStrings b a <= 0.
Proof.
  unfold compareStrings. rewrite (String.compare_antisym a b).
  destruct (String.compare b a); cbn; lia.
Qed.

Lemma ascii_compare_trans x y z :
  Ascii.compare x y <> Gt -> Ascii.compare y z <> Gt ->
  Ascii.compare x z <> Gt /\
  (Ascii.compare x z = Eq -> Ascii.compare x y = Eq /\ Ascii.compare y z = Eq).
Proof.
  unfold Ascii.compare.
  destruct (N.compare_spec (Ascii.N_of_ascii x) (Ascii.N_of_ascii y));
    destruct (N.compare_spec (Ascii.N_of_ascii y) (Ascii.N_of_ascii z));
    destruct (N.compare_spec (Ascii.N_of_ascii x) (Ascii.N_of_ascii z));
    intros G1 G2;
    first [ congruence | lia
          | split; [congruence | intros G3; first [lia | congruence | split; congruence]] ].
Qed.

Lemma string_compare_trans a :
  forall b c,
    String.compare a b <> Gt -> String.compare b c <> Gt ->
    String.compare a c <> Gt.
Proof.
  induction a as [|x a IH]; intros [|y b] [|z c]; cbn; try congruence.
  intros H1 H2.
  assert (Hxy : Ascii.compare x y <> Gt)
    by (destruct (Ascii.compare x y); congruence).
  assert (Hyz : Ascii.compare y z <> Gt)
    by (destruct (Ascii.compare y z); congruence).
  destruct (ascii_compare_trans x y z Hxy Hyz) as [Hxz Heq].
  destruct (Ascii.compare x z) eqn:E; try congruence.
  destruct (Heq eq_refl) as [E1 E2]. rewrite E1 in H1. rewrite E2 in H2.
  apply (IH b c); assumption.
Qed.

Lemma compareStrings_trans a b c :
  compareStrings a b <= 0 -> compareStrings b c <= 0 ->
  compareStrings a c <= 0.
Proof.
  unfold compareStrings. intros H1 H2.
  pose proof (string_compare_trans a b c) as H.
  destruct (String.compare a b); destruct (String.compare b c);
    destruct (String.compare a c); try lia;
    exfalso; apply H; congruence.
Qed.

(** ** The toast store *)

Lemma reducer_limit state action :
  (List.length (toasts state) <= TOAST_LIMIT)%nat ->
  (List.length (toasts (reducer state action)) <= TOAST_LIMIT)%nat.
Proof.
  intros H. destruct action as [t|p|i|[i|]]; cbn [reducer toasts].
  - apply firstn_le_length.
  - rewrite length_map. exact H.
  - rewrite length_map. exact H.
  - eapply Nat.le_trans; [apply filter_length_le | exact H].
  - cbn. unfold TOAST_LIMIT. lia.
Qed.

(** X17. At most one toast is shown at any time: every action keeps the
    list within [TOAST_LIMIT], and a toast that is added takes the place
    of whatever was shown, which is dropped without being dismissed. *)
Theorem toast_limit (actions : list ToastAction) (state : ToastState) :
  (List.length (toasts state) <= TOAST_LIMIT)%nat ->
  (List.length (toasts (dispatchAll actions state)) <= 1)%nat /\
  (forall t, toasts (reducer (dispatchAll actions state) (ADD_TOAST t)) = [t]) /\
  (forall t, toastTimeouts (reducer (dispatchAll actions state) (ADD_TOAST t))
             = toastTimeouts (dispatchAll actions state)).
Proof.
  intros H. split; [|split; reflexivity].
  revert state H. induction actions as [|a actions IH]; intros state H.
  - exact H.
  - cbn [dispatchAll fold_left]. apply IH, reducer_limit, H.
Qed.

Lemma addToRemoveQueue_spec i q :
  NoDup q ->
  NoDup (addToRemoveQueue i q) /\ In i (addToRemoveQueue i q) /\
  (forall j, In j q -> In j (addToRemoveQueue i q)) /\
  (In i q -> addToRemoveQueue i q = q).
Proof.
  intros Hnd. unfold addToRemoveQueue.
  destruct (existsb (String.eqb i) q) eqn:E.
  - apply existsb_exists in E as (j & Hj & Hij).
    apply String.eqb_eq in Hij. subst j. auto.
  - assert (Hn : ~ In i q).
    { intros Hi. assert (existsb (String.eqb i) q = true); [|congruence].
      apply existsb_exists. exists i. split; [exact Hi | apply String.eqb_refl]. }
    repeat split.
    + apply NoDup_app; repeat split; auto.
      * constructor; [intros []|constructor].
      * intros x Hx [<- | []]. exact (Hn Hx).
    + apply in_or_app. right. left. reflexivity.
    + intros j Hj. apply in_or_app. left. exact Hj.
    + intros Hi. contradiction.
Qed.

(** X18. Dismissing a toast by its identifier closes every toast with
    that identifier and no other, keeps all toasts in place, and schedules
    the removal of the identifier once: dismissing again changes nothing,
    neither the toasts nor the removals scheduled. *)
Theorem dismiss_once (state : ToastState) (toastId : string) :
  toastId <> "" ->
  NoDup (toastTimeouts state) ->
  let s1 := reducer state (DISMISS_TOAST (Some toastId)) in
  reducer s1 (DISMISS_TOAST (Some toastId)) = s1 /\
  NoDup (toastTimeouts s1) /\
  In toastId (toastTimeouts s1) /\
  map Toast.id (toasts s1) = map Toast.id (toasts state) /\
  (forall t, In t (toasts s1) -> Toast.id t = toastId ->
             Toast.open t = Some false) /\
  (forall t, In t (toasts state) -> Toast.id t <> toastId ->
             In t (toasts s1)).
Proof.
  intros Hne Hnd s1.
  apply String.eqb_neq in Hne.
  destruct (addToRemoveQueue_spec toastId (toastTimeouts state) Hnd)
    as (Q1 & Q2 & Q3 & Q4).
  assert (Hq : toastTimeouts s1 = addToRemoveQueue toastId (toastTimeouts state))
    by (unfold s1; cbn [reducer toastTimeouts]; rewrite Hne; reflexivity).
  assert (Ht : toasts s1 =
               map (fun t => if (Toast.id t =? toastId)%string
                             then Toast.mk (Toast.id t) (Toast.title t)
                                    (Toast.description t) (Toast.variant t)
                                    (Some false)
                             else t) (toasts state)).
  { unfold s1. cbn [reducer toasts isToast]. apply map_ext.
    intros t. rewrite orb_false_r. reflexivity. }
  split.
  - unfold reducer at 1. rewrite Hne, Hq.
    destruct (addToRemoveQueue_spec toastId _ Q1) as (_ & _ & _ & Q5).
    rewrite (Q5 Q2), <- Hq.
    assert (Hm : map (fun t => if isToast (Some toastId) t || false
                               then Toast.mk (Toast.id t) (Toast.title t)
                                      (Toast.description t) (Toast.variant t)
                                      (Some false)
                               else t) (toasts s1) = toasts s1).
    { rewrite Ht, map_map. apply map_ext. intros t. cbn [isToast].
      rewrite orb_false_r.
      destruct (Toast.id t =? toastId)%string eqn:E; cbn [Toast.id];
        rewrite E; reflexivity. }
    rewrite Hm. destruct s1; reflexivity.
  - rewrite Hq. split; [exact Q1|]. split; [exact Q2|].
    rewrite Ht. split.
    + rewrite map_map. apply map_ext. intros t.
      destruct (Toast.id t =? toastId)%string; reflexivity.
    + split.
      * intros t Hin Hid. apply in_map_iff in Hin as (t0 & <- & _).
        destruct (Toast.id t0 =? toastId)%string eqn:E; [reflexivity|].
        apply String.eqb_neq in E. contradiction.
      * intros t Hin Hid. apply in_map_iff. exists t. split; [|exact Hin].
        apply String.eqb_neq in Hid. rewrite Hid. reflexivity.
Qed.

(** X19. The life of a toast: added, dismissed, and removed when its
    timeout fires, it leaves no toast behind, whatever was shown before,
    and the removals scheduled are those of before, its own apart. *)
Theorem toast_life (state : ToastState) (t : Toast.t) :
  Toast.id t <> "" ->
  NoDup (toastTimeouts state) ->
  let shown := reducer state (ADD_TOAST t) in
  let closed := reducer shown (DISMISS_TOAST (Some (Toast.id t))) in
  let gone := timeoutFires (Toast.id t) closed in
  toasts shown = [t] /\
  toasts closed = [Toast.mk (Toast.id t) (Toast.title t)
                     (Toast.description t) (Toast.variant t) (Some false)] /\
  toasts gone = [] /\
  ~ In (Toast.id t) (toastTimeouts gone) /\
  (forall i, i <> Toast.id t ->
     (In i (toastTimeouts gone) <-> In i (toastTimeouts state))).
Proof.
  intros Hne Hnd shown closed gone.
  apply String.eqb_neq in Hne.
  destruct (addToRemoveQueue_spec (Toast.id t) (toastTimeouts state) Hnd)
    as (Q1 & Q2 & Q3 & Q4).
  split; [reflexivity|].
  assert (Hc : toasts closed =
               [Toast.mk (Toast.id t) (Toast.title t) (Toast.description t)
                  (Toast.variant t) (Some false)]).
  { unfold closed, shown. cbn [reducer toasts firstn TOAST_LIMIT map isToast].
    rewrite String.eqb_refl. reflexivity. }
  split; [exact Hc|].
  assert (Hq : toastTimeouts gone =
               filter (fun i => negb (i =? Toast.id t)%string)
                 (addToRemoveQueue (Toast.id t) (toastTimeouts state))).
  { unfold gone, timeoutFires, closed, shown.
    cbn [reducer toastTimeouts toasts]. rewrite Hne. reflexivity. }
  split.
  - unfold gone, timeoutFires. cbn [reducer toasts]. rewrite Hc.
    cbn [filter Toast.id]. rewrite String.eqb_refl. reflexivity.
  - rewrite Hq. split.
    + intros H. apply filter_In in H as [_ H].
      rewrite String.eqb_refl in H. discriminate.
    + intros i Hi. rewrite filter_In. split.
      * intros [H _]. unfold addToRemoveQueue in H.
        destruct (existsb _ _); [exact H|].
        apply in_app_or in H as [H | [<- | []]]; [exact H | congruence].
      * intros H. split; [apply Q3, H|].
        apply String.eqb_neq in Hi. rewrite Hi. reflexivity.
Qed.

(** ** validateEmail *)

Lemma Matches_nil_nullable r s :
  Matches r s -> s = [] -> nullable r = true.
Proof.
  induction 1 as [|p c Hp|r1 r2 s1 s2 _ IH1 _ IH2|r1 r2 s _ IH|r1 r2 s _ IH
                  |r|r s1 s2 _ _ _ _]; intros E; cbn; auto; try discriminate.
  - apply app_eq_nil in E as [-> ->]. rewrite IH1, IH2; reflexivity.
  - rewrite IH; auto.
  - rewrite IH; auto using orb_true_r.
Qed.

Lemma nullable_Matches r : nullable r = true -> Matches r [].
Proof.
  induction r as [| |p|r1 IH1 r2 IH2|r1 IH1 r2 IH2|r IH]; cbn; intros H;
    try discriminate.
  - constructor.
  - apply andb_prop in H as [H1 H2].
    apply (MSeq r1 r2 [] []); auto.
  - apply orb_prop in H as [H | H]; [apply MAltL | apply MAltR]; auto.
  - constructor.
Qed.

Lemma derive_complete r s0 :
  Matches r s0 -> forall c s, s0 = c :: s -> Matches (derive c r) s.
Proof.
  induction 1 as [|p c' Hp|r1 r2 s1 s2 H1 IH1 H2 IH2|r1 r2 s0 _ IH|r1 r2 s0 _ IH
                  |r|r s1 s2 H1 IH1 H2 IH2]; intros c s E; cbn;
    try discriminate.
  - injection E as -> <-. rewrite Hp. constructor.
  - destruct s1 as [|c1 s1].
    + cbn in E. subst s2.
      rewrite (Matches_nil_nullable r1 [] H1 eq_refl).
      apply MAltR. apply IH2. reflexivity.
    + cbn in E. injection E as -> <-.
      pose proof (MSeq _ r2 _ s2 (IH1 c s1 eq_refl) H2) as HM.
      destruct (nullable r1); [apply MAltL|]; exact HM.
  - apply MAltL, IH, E.
  - apply MAltR, IH, E.
  - destruct s1 as [|c1 s1].
    + cbn in E. apply (IH2 c s E).
    + cbn in E. injection E as -> <-.
      exact (MSeq _ _ _ _ (IH1 c s1 eq_refl) H2).
Qed.

Lemma derive_sound c r :
  forall s, Matches (derive c r) s -> Matches r (c :: s).
Proof.
  induction r as [| |p|r1 IH1 r2 IH2|r1 IH1 r2 IH2|r IH]; cbn; intros s H.
  - inversion H.
  - inversion H.
  - destruct (p c) eqn:Hp; inversion H; subst. constructor. exact Hp.
  - assert (HS : forall s, Matches (Seq (derive c r1) r2) s ->
                           Matches (Seq r1 r2) (c :: s)).
    { intros s' H'. inversion H' as [| |? ? s1 s2 Ha Hb| | | |]; subst.
      exact (MSeq r1 r2 (c :: s1) s2 (IH1 _ Ha) Hb). }
    destruct (nullable r1) eqn:Hn; [|apply HS, H].
    inversion H as [| | |? ? ? Ha|? ? ? Hb| |]; subst; [apply HS, Ha|].
    exact (MSeq r1 r2 [] (c :: s) (nullable_Matches r1 Hn) (IH2 _ Hb)).
  - inversion H; subst; [apply MAltL | apply MAltR]; auto.
  - inversion H as [| |? ? s1 s2 Ha Hb| | | |]; subst.
    exact (MStarCons r (c :: s1) s2 (IH _ Ha) Hb).
Qed.

Lemma test_Matches r s : test r s = true <-> Matches r s.
Proof.
  unfold test. revert r. induction s as [|c s IH]; intros r; cbn [fold_left].
  - split; [apply nullable_Matches|].
    intros H. exact (Matches_nil_nullable r [] H eq_refl).
  - rewrite IH. split; [apply derive_sound|].
    intros H. exact (derive_complete r _ H c s eq_refl).
Qed.

Lemma Matches_star_class p s0 :
  Matches (Star (Class p)) s0 -> Forall (fun c => p c = true) s0.
Proof.
  remember (Star (Class p)) as r eqn:Er.
  induction 1 as [| | | | |r'|r' s1 s2 H1 _ H2 IH2]; try discriminate.
  - constructor.
  - injection Er as ->. inversion H1; subst. constructor; auto.
Qed.

Lemma Matches_plus_class p s :
  Matches (Plus (Class p)) s <-> s <> [] /\ Forall (fun c => p c = true) s.
Proof.
  split.
  - intros H. inversion H as [| |? ? s1 s2 Ha Hb| | | |]; subst.
    inversion Ha; subst. split; [discriminate|].
    constructor; [assumption | apply Matches_star_class, Hb].
  - intros [Hne Hall]. destruct s as [|c s]; [congruence|].
    inversion Hall as [|? ? Hc Hs]; subst.
    apply (MSeq (Class p) (Star (Class p)) [c] s); [constructor; exact Hc|].
    clear - Hs. induction Hs as [|c' s' Hc' _ IH]; [constructor|].
    exact (MStarCons (Class p) [c'] s' (MClass p c' Hc') IH).
Qed.

Lemma plain_spec c :
  plain c = true <-> isWhiteSpace c = false /\ c <> atSign.
Proof.
  unfold plain. rewrite negb_true_iff, orb_false_iff, N.eqb_neq. reflexivity.
Qed.

(** X20. [validateEmail] accepts exactly the strings of the form
    [local @ domain . tld] in which the three parts are non-empty and hold
    neither white space nor an at sign (the domain may hold dots).  An
    accepted address therefore has exactly one at sign and no white
    space. *)
Theorem validateEmail_shape (email : list CodeUnit) :
  (validateEmail email = true <->
   exists local domain tld,
     email = (local ++ atSign :: domain ++ dot :: tld)%list /\
     local <> [] /\ domain <> [] /\ tld <> [] /\
     Forall (fun c => plain c = true) (local ++ domain ++ tld)%list) /\
  (validateEmail email = true ->
   count_occ N.eq_dec email atSign = 1%nat /\
   Forall (fun c => isWhiteSpace c = false) email).
Proof.
  assert (Shape : validateEmail email = true <->
    exists local domain tld,
      email = (local ++ atSign :: domain ++ dot :: tld)%list /\
      local <> [] /\ domain <> [] /\ tld <> [] /\
      Forall (fun c => plain c = true) (local ++ domain ++ tld)%list).
  { unfold validateEmail. rewrite test_Matches. unfold emailRegex. split.
    - intros H.
      inversion H as [| |? ? a s1 Ha H1| | | |]; subst.
      inversion H1 as [| |? ? at1 s2 Hat H2| | | |]; subst.
      inversion H2 as [| |? ? b s3 Hb H3| | | |]; subst.
      inversion H3 as [| |? ? d1 c Hd Hc| | | |]; subst.
      inversion Hat as [|? x Hx| | | | |]; subst.
      inversion Hd as [|? y Hy| | | | |]; subst.
      apply N.eqb_eq in Hx, Hy. subst x y.
      apply Matches_plus_class in Ha as [Na Fa], Hb as [Nb Fb], Hc as [Nc Fc].
      exists a, b, c. repeat split; auto.
      apply Forall_app. split; [exact Fa|].
      apply Forall_app. split; assumption.
    - intros (a & b & c & -> & Na & Nb & Nc & F).
      apply Forall_app in F as [Fa F]. apply Forall_app in F as [Fb Fc].
      apply MSeq; [apply Matches_plus_class; auto|].
      apply (MSeq _ _ [atSign]); [constructor; apply N.eqb_refl|].
      apply MSeq; [apply Matches_plus_class; auto|].
      apply (MSeq _ _ [dot]); [constructor; apply N.eqb_refl|].
      apply Matches_plus_class; auto. }
  split; [exact Shape|].
  intros H. apply Shape in H as (a & b & c & -> & _ & _ & _ & F).
  apply Forall_app in F as [Fa F]. apply Forall_app in F as [Fb Fc].
  assert (Hcount : forall l, Forall (fun c => plain c = true) l ->
                             count_occ N.eq_dec l atSign = 0%nat).
  { intros l Hl. apply count_occ_not_In. intros Hin.
    rewrite Forall_forall in Hl. apply Hl, plain_spec in Hin as [_ Hin].
    congruence. }
  assert (Hws : forall l, Forall (fun c => plain c = true) l ->
                          Forall (fun c => isWhiteSpace c = false) l).
  { intros l Hl. eapply Forall_impl; [|exact Hl].
    intros x Hx. apply plain_spec in Hx. tauto. }
  split.
  - unfold CodeUnit in *.
    pose proof (Hcount a Fa) as Ca. pose proof (Hcount b Fb) as Cb.
    pose proof (Hcount c Fc) as Cc.
    rewrite count_occ_app, (count_occ_cons_eq N.eq_dec _ (eq_refl atSign)),
      count_occ_app, (count_occ_cons_neq N.eq_dec c) by discriminate.
    rewrite Ca, Cb, Cc. reflexivity.
  - apply Forall_app. split; [auto|]. constructor; [reflexivity|].
    apply Forall_app. split; [auto|]. constructor; [reflexivity | auto].
Qed.

(** ** The streak and the offset of the time zone *)

(** X21. What [updateStreak] does, by the dates it compares.  The streak
    becomes the old one plus 1 when [lastActiveDate] is the date taken
    for yesterday, stays when it is today, and is 1 otherwise;
    [lastActiveDate] becomes today.  The date taken for yesterday is the
    day before today exactly when the time of day (UTC) plus the change
    of the offset since one local day earlier stays within the day, as
    it does whenever that change is zero, and then the streak follows the
    rule of the specification. *)
Theorem updateStreak_by_dates (now : Clock) (s : GameState) :
  let s' := exec (updateStreak now) s in
  let last := User.lastActiveDate (user s) in
  User.lastActiveDate (user s') = today now /\
  User.streak (user s') =
    (if last =? yesterdayStr now then User.streak (user s) + 1
     else if last =? today now then User.streak (user s) else 1) /\
  (yesterdayStr now = today now - 1 <->
   0 <= instant now mod msPerDay + offsetChange now < msPerDay) /\
  (steady now -> yesterdayStr now = today now - 1) /\
  (yesterdayStr now = today now - 1 ->
   User.streak (user s') =
     rolledStreak (today now) last (User.streak (user s))).
Proof.
  cbv zeta. destruct (updateStreak_user now s) as [Hs Hl]. cbv zeta in Hs, Hl.
  split; [exact Hl|]. split; [exact Hs|]. split; [|split].
  - rewrite yesterdayStr_spec.
    assert (D : msPerDay <> 0) by (unfold msPerDay; lia).
    pose proof (Z.div_small_iff
                  (instant now mod msPerDay + offsetChange now) msPerDay D)
      as I.
    unfold msPerDay in *. split; intros H.
    + assert (E : (instant now mod 86400000 + offsetChange now) / 86400000 = 0)
        by lia.
      apply I in E. lia.
    + assert (E : (instant now mod 86400000 + offsetChange now) / 86400000 = 0)
        by (apply I; lia).
      lia.
  - apply yesterdayStr_steady.
  - apply updateStreak_user_rolled.
Qed.

(** X22. A second [updateStreak] on the UTC day of a first one.
    [lastActiveDate] stays.  Unless the date taken for yesterday at the
    second call is that same day, the second call changes nothing at all,
    so in particular when the offset of the time zone is the one of a
    local day earlier; if it is that same day, the streak is raised
    once more. *)
Theorem updateStreak_twice_same_day (first second : Clock) (s : GameState) :
  today second = today first ->
  let s1 := exec (updateStreak first) s in
  let s2 := exec (updateStreak second) s1 in
  User.lastActiveDate (user s2) = User.lastActiveDate (user s1) /\
  (yesterdayStr second <> today second -> s2 = s1) /\
  (steady second -> s2 = s1) /\
  (yesterdayStr second = today second ->
   User.streak (user s2) = User.streak (user s1) + 1).
Proof.
  intros Hday s1 s2.
  destruct (updateStreak_user first s) as [_ Hl1]. fold s1 in Hl1.
  destruct (updateStreak_user second s1) as [Hs2 Hl2]. fold s2 in Hs2, Hl2.
  split; [congruence|]. split; [|split].
  - intros Hy. apply (updateStreak_again first second s Hday Hy).
  - intros Hst. apply (updateStreak_again first second s Hday).
    rewrite (yesterdayStr_steady second Hst). lia.
  - intros Hy. rewrite Hs2, Hl1, <- Hday, Hy, Z.eqb_refl. reflexivity.
Qed.

(** ** Instances of the further properties *)

Lemma newcomer_rewardsNonneg : rewardsNonneg newcomer.
Proof. split; repeat constructor; cbn; lia. Qed.

Lemma sampleRun_nonneg : Forall nonnegAmount sampleRun.
Proof. repeat constructor; cbn; lia. Qed.

(** A day and a half of activity, then a logout and one more award. *)
Lemma level_never_ahead_of_xp_witness :
  let s' := game (performAll
                    (sampleRun ++ [step tuesday DoLogout;
                                   step tuesday (DoAddXP perfect_quiz None)])
                    freshWorld) in
  0 <= User.xp (user s') /\
  1 <= User.level (user s') /\
  User.level (user s') <= calculateLevel (User.xp (user s')).
Proof.
  apply level_never_ahead_of_xp.
  - exact newcomer_rewardsNonneg.
  - repeat split; cbn; lia.
  - apply Forall_app. split; [exact sampleRun_nonneg|].
    repeat constructor.
Defined.

Lemma user_badges_distinct_and_unlocked_witness :
  let s' := game (performAll sampleRun freshWorld) in
  NoDup (User.badges (user s')) /\
  (forall badgeId, In badgeId (User.badges (user s')) ->
     exists b, findBadge badgeId (badges s') = Some b /\
               Badge.unlocked b = true).
Proof.
  apply user_badges_distinct_and_unlocked.
  split; [constructor | intros ? []].
Defined.

Lemma xp_never_decreases_witness :
  User.xp (user (game freshWorld))
  <= User.xp (user (game (performAll sampleRun freshWorld))).
Proof.
  apply xp_never_decreases.
  - exact newcomer_rewardsNonneg.
  - exact sampleRun_nonneg.
  - repeat constructor.
Defined.

(** At 250 XP and level 2: 150 of the 300 XP of the level. *)
Lemma getLevelProgress_within_level_witness :
  let s := exec (addXP monday complete_quiz (Some 250)) newcomer in
  let p := eval getLevelProgress s in
  0 <= current p < next p /\
  next p = (2 * User.level (user s) - 1) * 100 /\
  (0 <= progress p < 100)%Q /\
  exec getLevelProgress s = s.
Proof.
  apply getLevelProgress_within_level; [cbn; lia | reflexivity].
Defined.

(** quiz_master on a new account: 100 XP at level 1, whose width is 100. *)
Lemma getLevelProgress_after_badge_witness :
  let p' := eval getLevelProgress
              (exec (unlockBadge monday "quiz_master") newcomer) in
  current p' = 0 + 100 /\ next p' = 100 /\ next p' <= current p' /\
  (100 <= progress p')%Q.
Proof.
  exact (getLevelProgress_after_badge monday "quiz_master" newcomer _
           eq_refl eq_refl ltac:(cbn; lia) ltac:(cbn; lia)).
Defined.

Lemma addXP_gain_grows_with_streak_witness :
  let g1 := xpGained (eval (addXP monday correct_step None) newcomer) in
  let g2 := xpGained (eval (addXP monday correct_step None)
                        (withStreak 7 newcomer)) in
  g1 <= g2 /\ 10 <= g1 /\ g2 <= 2 * 10.
Proof.
  exact (addXP_gain_grows_with_streak monday correct_step None newcomer
           (withStreak 7 newcomer) ltac:(cbn; lia) ltac:(cbn; lia)).
Defined.

(** The quiz mission, completed, reset and completed again. *)
Lemma resetDailyMissions_awards_again_witness :
  let m := mkMission "mission_quiz" "Quiz Champion"
             "Complete 2 quizzes today" quiz 2 75 in
  let s := exec (updateMissionProgress monday quiz 2) newcomer in
  let s2 := exec (updateMissionProgress mondayEvening quiz 2)
              (exec resetDailyMissions s) in
  User.xp (user s) = 75 /\
  User.xp (user s2) = User.xp (user s) + missionGain s m + level10Bonus s s2 /\
  User.xp (user s2) = 150.
Proof.
  cbv zeta.
  destruct (resetDailyMissions_awards_again mondayEvening
              (exec (updateMissionProgress monday quiz 2) newcomer)
              (mkMission "mission_quiz" "Quiz Champion"
                 "Complete 2 quizzes today" quiz 2 75)
              2 ltac:(left; reflexivity) ltac:(cbn; lia))
    as (_ & _ & _ & _ & _ & X).
  split; [reflexivity|]. split; [exact X | reflexivity].
Defined.

(** A learner last active on Sunday with a streak of 5 visits twice on
    Monday and once on Tuesday: two days more, and the week-streak
    badge. *)
Lemma streak_counts_days_witness :
  let s' := exec (visits [monday; mondayEvening; tuesday])
              (lastSeen 5 19722 newcomer) in
  User.lastActiveDate (user s') = 19724 /\
  User.streak (user s') = 5 + (19724 - 19722) /\
  lockedBadge "week_streak" s' = None.
Proof.
  destruct (streak_counts_days [monday; mondayEvening; tuesday]
              (lastSeen 5 19722 newcomer)) as (D & S & W).
  - vm_compute. repeat split; auto.
  - repeat constructor; reflexivity.
  - cbv zeta. split; [exact D|]. split; [exact S|].
    apply W; [discriminate | rewrite S; cbn; lia].
Defined.

Lemma rewardSolvedDoubt_report_witness :
  let reported := eval (rewardSolvedDoubt monday true) newcomer in
  let s' := exec (rewardSolvedDoubt monday true) newcomer in
  reported = 20 /\
  Stats.doubtsAsked (stats s') = 1 /\
  Stats.stepsSubmitted (stats s') = 1 /\
  User.xp (user newcomer) + reported <= User.xp (user s') /\
  User.xp (user s') = 45.
Proof.
  destruct (rewardSolvedDoubt_report monday true newcomer
              newcomer_rewardsNonneg) as (R & _ & D & S & _ & _ & X).
  cbv zeta. split; [exact R|]. split; [exact D|]. split; [exact S|].
  split; [exact X | reflexivity].
Defined.

Lemma getLevelTitle_by_xp_witness :
  getLevelTitle (calculateLevel 2499) = "Novice Learner" /\
  getLevelTitle (calculateLevel 2500) = "Curious Student".
Proof.
  rewrite (getLevelTitle_by_xp 2499 ltac:(lia)).
  rewrite (getLevelTitle_by_xp 2500 ltac:(lia)).
  split; reflexivity.
Defined.

Lemma scheduleOfPlan_sorted_witness :
  exists schedule,
    scheduleOfPlan compareStrings "Maths" sampleChapters samplePlan
      = inr schedule /\
    map ScheduleDay.date schedule = ["2025-12-14"; "2025-12-15"; "2025-12-16"] /\
    StronglySorted
      (fun a b => compareStrings (ScheduleDay.date a) (ScheduleDay.date b) <= 0)
      schedule.
Proof.
  eexists. split; [reflexivity|]. split; [reflexivity|].
  apply (scheduleOfPlan_sorted compareStrings "Maths" sampleChapters
           samplePlan _ compareStrings_total compareStrings_trans eq_refl).
Defined.

Lemma toast_limit_witness :
  let state := dispatchAll
                 [ADD_TOAST sampleToast; DISMISS_TOAST None;
                  ADD_TOAST sampleToast;
                  UPDATE_TOAST (ToastPatch.mk (Some "7") (Some "Done")
                                  None None None)]
                 sampleToasts in
  (List.length (toasts state) <= 1)%nat /\
  toasts (reducer state (ADD_TOAST sampleToast)) = [sampleToast].
Proof.
  destruct (toast_limit
              [ADD_TOAST sampleToast; DISMISS_TOAST None;
               ADD_TOAST sampleToast;
               UPDATE_TOAST (ToastPatch.mk (Some "7") (Some "Done")
                               None None None)]
              sampleToasts ltac:(unfold TOAST_LIMIT; cbn; lia)) as (L & A & _).
  cbv zeta. split; [exact L | apply A].
Defined.

Lemma dismiss_once_witness :
  let s1 := reducer sampleToasts (DISMISS_TOAST (Some "6")) in
  reducer s1 (DISMISS_TOAST (Some "6")) = s1 /\
  toastTimeouts s1 = ["3"; "6"].
Proof.
  destruct (dismiss_once sampleToasts "6" ltac:(discriminate)
              ltac:(repeat constructor; cbn; intuition discriminate))
    as (I & _).
  cbv zeta. split; [exact I | reflexivity].
Defined.

Lemma toast_life_witness :
  let shown := reducer sampleToasts (ADD_TOAST sampleToast) in
  let closed := reducer shown (DISMISS_TOAST (Some "7")) in
  let gone := timeoutFires "7" closed in
  toasts shown = [sampleToast] /\
  toasts gone = [] /\
  toastTimeouts gone = ["3"].
Proof.
  destruct (toast_life sampleToasts sampleToast ltac:(discriminate)
              ltac:(repeat constructor; cbn; intuition discriminate))
    as (S & _ & G & _).
  cbv zeta. split; [exact S|]. split; [exact G | reflexivity].
Defined.

(** Two visits on Monday by a learner last active on Sunday with a streak
    of 6: the first makes it 7 and unlocks the week-streak badge, the
    second changes nothing. *)
Lemma updateStreak_twice_same_day_witness :
  let s1 := exec (updateStreak monday) (lastSeen 6 19722 newcomer) in
  today mondayEvening = today monday /\
  User.streak (user s1) = 7 /\
  lockedBadge "week_streak" s1 = None /\
  exec (updateStreak mondayEvening) s1 = s1.
Proof.
  cbv zeta.
  destruct (updateStreak_twice_same_day monday mondayEvening
              (lastSeen 6 19722 newcomer) eq_refl) as (_ & _ & Same & _).
  split; [reflexivity|]. split; [reflexivity|]. split; [reflexivity|].
  apply Same. reflexivity.
Defined.
